(** * LSCProxy: the relay client [AVAPIs_Client.c]

    A shallow embedding of [LSCProxy/source/AVAPIs_Client.c]: the signal
    handler, the two receive threads, the buffer-clean thread, the
    connection thread and [main].

    Library calls (the TUTK IOTC/AV SDK, POSIX) are not interpreted: each
    call is recorded in a trace together with the value it returned, and the
    returned values come from a schedule that also says where signals are
    delivered.  Every statement about the program quantifies over all
    schedules.

    The values the program handles are C [int]s that it only stores,
    passes on and compares; they are integers of [Z] here. *)

From Stdlib Require Import ZArith List String Bool Lia.
From Stdlib Require DecimalString.
Import ListNotations.
Local Open Scope Z_scope.

(** ** Constants of the SDK and C library headers

    [AVAPIs.h], [IOTCAPIs.h] and [stdlib.h] are not part of the sources, so
    the numeric values of their macros are parameters of the development. *)

Class sdk_consts : Type := {
  AV_ER_DATA_NOREADY : Z;
  AV_ER_LOSED_THIS_FRAME : Z;
  AV_ER_SESSION_CLOSE_BY_REMOTE : Z;
  AV_ER_REMOTE_TIMEOUT_DISCONNECT : Z;
  IOTC_ER_INVALID_SID : Z;
  IOTC_ER_NoERROR : Z;
  EXIT_FAILURE : Z
}.

(** The values the TUTK headers and glibc give these macros; used to run the
    model on concrete schedules. *)
Definition tutk_linux : sdk_consts := {|
  AV_ER_DATA_NOREADY := -20012;
  AV_ER_LOSED_THIS_FRAME := -20014;
  AV_ER_SESSION_CLOSE_BY_REMOTE := -20015;
  AV_ER_REMOTE_TIMEOUT_DISCONNECT := -20016;
  IOTC_ER_INVALID_SID := -14;
  IOTC_ER_NoERROR := 0;
  EXIT_FAILURE := 1
|}.

(** The return codes the receive loops tell apart are pairwise different in
    the headers; the theorems that need it ask for this much. *)
Definition lost_frame_distinct (K : sdk_consts) : Prop :=
  AV_ER_LOSED_THIS_FRAME <> AV_ER_SESSION_CLOSE_BY_REMOTE /\
  AV_ER_LOSED_THIS_FRAME <> AV_ER_REMOTE_TIMEOUT_DISCONNECT /\
  AV_ER_LOSED_THIS_FRAME <> IOTC_ER_INVALID_SID.

(** [#define]s and globals of the file itself. *)
Definition AUDIO_BUF_SIZE : Z := 1024.
Definition VIDEO_BUF_SIZE : Z := 128000.
Definition gSleepUs : Z := 10000.

(** ** Calls and traces *)

(** The signals the handler distinguishes; it is installed for the first
    two only (lines 513-514). *)
Inductive signal : Type := SIGPIPE | SIGINT | SIGOTHER.

Inductive fifo : Type := AUDIO_FIFO_PATH | VIDEO_FIFO_PATH.

Inductive open_flag : Type := O_WRONLY | O_RDWR.

Inductive routine : Type :=
| thread_ReceiveVideo_fn
| thread_ReceiveAudio_fn
| thread_bufferClean_fn
| thread_ConnectCCR_fn.

(** The IOCtrl opcodes used: the literal [0x5000] and four macros of
    [AVIOCTRLDEFs.h]. *)
Inductive ioctrl : Type :=
| IOTYPE_0x5000
| IOTYPE_USER_IPCAM_SETSTREAMCTRL_REQ
| IOTYPE_USER_IPCAM_START
| IOTYPE_USER_IPCAM_AUDIOSTART
| IOTYPE_USER_IPCAM_STOP.

(** A call as it is written in the source, with the arguments that vary.
    [c_close] also names the variable ([audio_pipe_fd] or [video_pipe_fd])
    whose descriptor is closed. *)
Inductive call : Type :=
| c_fork
| c_open (path : fifo) (fl : open_flag)
| c_execlp_ffmpeg
| c_close (sink : fifo) (fd : Z)
| c_write (fd len : Z)
| c_kill_SIGKILL (pid : Z)
| c_usleep (us : Z)
| c_sleep (sec : Z)
| c_malloc
| c_free
| c_pthread_create (f : routine)
| c_pthread_join (f : routine)
| c_IOTC_Initialize2
| c_IOTC_DeInitialize
| c_IOTC_Lan_Search
| c_IOTC_Get_SessionID
| c_IOTC_Connect_ByUID_Parallel (tmpSID : Z)
| c_IOTC_Session_Close (SID : Z)
| c_avInitialize
| c_avDeInitialize
| c_avGetAVApiVer
| c_avClientStart2 (SID : Z)
| c_avClientExit (SID : Z)
| c_avClientStop (avIndex : Z)
| c_avSendIOCtrl (avIndex : Z) (cmd : ioctrl)
| c_avCheckAudioBuf (avIndex : Z)
| c_avRecvAudioData (avIndex size : Z)
| c_avRecvFrameData2 (avIndex size : Z)
| c_avClientCleanVideoBuf (avIndex : Z)
| c_avClientCleanAudioBuf (avIndex : Z).

Inductive event : Type :=
| Called (c : call) (ret : Z)     (* a library call and the value it returned *)
| Printed (text : string)         (* printf / fprintf, by format string *)
| Perror (text : string)          (* perror *)
| ErrHandling (nErr : Z)          (* PrintErrHandling(nErr): the message table *)
| Caught (sg : signal).           (* the handler is entered *)

(** One entry of a schedule: a signal is delivered, or the thread executes
    its next statement; [v] is what the callee returns when that statement is
    a library call. *)
Inductive input : Type :=
| Signal (sg : signal)
| Step (v : Z).

(** ** Shutdown flags and the signal handler (lines 31-54) *)

Record flags : Type := mkFlags { graceful_shutdown : Z; sigkill : Z }.

(** [int graceful_shutdown = 0; int sigkill = 0;] *)
Definition flags0 : flags := {| graceful_shutdown := 0; sigkill := 0 |}.

Definition msg_sigpipe : string := "Caught SIGPIPE signal\n".
Definition msg_graceful : string :=
  "Caught SIGINT signal\n. Gracefully shutting down...\n".
Definition msg_forced : string :=
  "Caught 2 SIGINT signals\n. Forcefully shutting down...\n".

(** [sigpipe_handler]: what is printed, the flags afterwards, and [Some c]
    when the handler calls [exit(c)]. *)
Definition sigpipe_handler (signo : signal) (g : flags)
  : list event * flags * option Z :=
  match signo with
  | SIGPIPE => ([Printed msg_sigpipe], g, None)
  | SIGINT =>
      if negb (sigkill g =? 1)
      then ([Printed msg_graceful],
            {| graceful_shutdown := 1; sigkill := 1 |}, None)
      else ([Printed msg_forced], g, Some 1)
  | SIGOTHER => ([], g, None)
  end.

(** The handler run on a sequence of signals; nothing runs after [exit]. *)
Fixpoint deliver (sigs : list signal) (g : flags)
  : list event * flags * option Z :=
  match sigs with
  | [] => ([], g, None)
  | sg :: rest =>
      match sigpipe_handler sg g with
      | (evs, g', Some code) => (Caught sg :: evs, g', Some code)
      | (evs, g', None) =>
          let '(evs', g'', ex) := deliver rest g' in
          (Caught sg :: evs ++ evs', g'', ex)
      end
  end.

(** Projections: the elements [f] selects, in order. *)
Fixpoint pick {A B : Type} (f : A -> option B) (l : list A) : list B :=
  match l with
  | [] => []
  | a :: l' =>
      match f a with
      | Some b => b :: pick f l'
      | None => pick f l'
      end
  end.

(** What the statements below observe of a trace: the library calls with
    the values they returned, and the handler's forced-shutdown message. *)
Inductive mark : Type :=
| MCall (c : call) (v : Z)
| MForced.

Definition mark_of (e : event) : option mark :=
  match e with
  | Called c v => Some (MCall c v)
  | Printed text =>
      if String.eqb text msg_forced then Some MForced else None
  | _ => None
  end.

Definition marks : list event -> list mark := pick mark_of.

Definition call_of (m : mark) : option (call * Z) :=
  match m with
  | MCall c v => Some (c, v)
  | MForced => None
  end.

(** The library calls of a trace, with the values they returned. *)
Definition called (tr : list event) : list (call * Z) :=
  pick call_of (marks tr).

Definition calls (tr : list event) : list call := map fst (called tr).

Definition is_printed (text : string) (e : event) : bool :=
  match e with
  | Printed t => String.eqb t text
  | _ => false
  end.

Definition count_printed (text : string) (tr : list event) : nat :=
  List.length (filter (is_printed text) tr).

Definition is_sigint (sg : signal) : bool :=
  match sg with SIGINT => true | _ => false end.

Definition count_sigint (sigs : list signal) : nat :=
  List.length (filter is_sigint sigs).

(** The two flags move together: the handler is their only writer. *)
Definition flags_inv (g : flags) : Prop :=
  (graceful_shutdown g = 0 /\ sigkill g = 0) \/
  (graceful_shutdown g = 1 /\ sigkill g = 1).

(** ** Running one thread against a schedule

    A thread is at a statement [pc], has returned, or has ended the process
    by calling [exit]. *)
Inductive status (PC : Type) : Type :=
| Running (pc : PC)
| Finished
| Exited (code : Z).
Arguments Running {PC} pc.
Arguments Finished {PC}.
Arguments Exited {PC} code.

Section Run.
Context {PC : Type}.
(** [step pc g v]: the statement at [pc], executed with the flags [g]
    while its callee returns [v]. *)
Variable step : PC -> flags -> Z -> list event * status PC.

Definition exec (i : input) (g : flags) (st : status PC)
  : list event * flags * status PC :=
  match st with
  | Running pc =>
      match i with
      | Signal sg =>
          match sigpipe_handler sg g with
          | (evs, g', Some code) => (Caught sg :: evs, g', Exited code)
          | (evs, g', None) => (Caught sg :: evs, g', Running pc)
          end
      | Step v => let '(evs, st') := step pc g v in (evs, g, st')
      end
  | _ => ([], g, st)
  end.

Fixpoint run (sched : list input) (g : flags) (st : status PC)
  : list event * flags * status PC :=
  match sched with
  | [] => ([], g, st)
  | i :: rest =>
      let '(evs, g', st') := exec i g st in
      let '(evs', g'', st'') := run rest g' st' in
      (evs ++ evs', g'', st'')
  end.

Definition trace_of (r : list event * flags * status PC) : list event :=
  fst (fst r).
Definition flags_of (r : list event * flags * status PC) : flags :=
  snd (fst r).
Definition status_of (r : list event * flags * status PC) : status PC :=
  snd r.

(** Continue a run with a further piece of schedule. *)
Definition resume (sched : list input) (r : list event * flags * status PC)
  : list event * flags * status PC :=
  run sched (flags_of r) (status_of r).
End Run.

(** ** [thread_ReceiveAudio] (lines 199-272) *)

Inductive audio_pc : Type :=
| A_open                      (* 211: open(AUDIO_FIFO_PATH, O_WRONLY) *)
| A_check (fd : Z)            (* 219: avCheckAudioBuf *)
| A_usleep (fd : Z)           (* 224: usleep(gSleepUs); continue *)
| A_recv (fd : Z)             (* 228: avRecvAudioData *)
| A_flag1 (fd ret : Z)        (* 250: if (graceful_shutdown == 1) break *)
| A_write (fd ret : Z)        (* 256: write(audio_pipe_fd, buf, ret) *)
| A_flag2 (fd : Z)            (* 261: if (graceful_shutdown == 1) break *)
| A_close (fd : Z).           (* 267: close(audio_pipe_fd); return *)

Definition audio_step {K : sdk_consts} (avIndex : Z)
  (pc : audio_pc) (g : flags) (v : Z) : list event * status audio_pc :=
  match pc with
  | A_open =>
      let evs := [Printed "Audio Starting...\n";
                  Printed "Start IPCAM audio stream OK!\n";
                  Called (c_open AUDIO_FIFO_PATH O_WRONLY) v] in
      if v =? -1
      then (evs ++ [Perror "open"], Exited EXIT_FAILURE)
      else (evs, Running (A_check v))
  | A_check fd =>
      let evs := [Called (c_avCheckAudioBuf avIndex) v] in
      if v <? 0 then (evs, Running (A_close fd))
      else if v <? 25 then (evs, Running (A_usleep fd))
      else (evs, Running (A_recv fd))
  | A_usleep fd =>
      ([Called (c_usleep gSleepUs) v], Running (A_check fd))
  | A_recv fd =>
      let evs := [Called (c_avRecvAudioData avIndex AUDIO_BUF_SIZE) v] in
      if v =? AV_ER_SESSION_CLOSE_BY_REMOTE
      then (evs ++ [Printed "[thread_ReceiveAudio] AV_ER_SESSION_CLOSE_BY_REMOTE\n"],
            Running (A_close fd))
      else if v =? AV_ER_REMOTE_TIMEOUT_DISCONNECT
      then (evs ++ [Printed "[thread_ReceiveAudio] AV_ER_REMOTE_TIMEOUT_DISCONNECT\n"],
            Running (A_close fd))
      else if v =? IOTC_ER_INVALID_SID
      then (evs ++ [Printed "[thread_ReceiveAudio] Session cant be used anymore\n"],
            Running (A_close fd))
      else if v =? AV_ER_LOSED_THIS_FRAME
      then (evs, Running (A_check fd))
      else (evs, Running (A_flag1 fd v))
  | A_flag1 fd ret =>
      if graceful_shutdown g =? 1
      then ([], Running (A_close fd))
      else ([], Running (A_write fd ret))
  | A_write fd ret =>
      let evs := [Called (c_write fd ret) v] in
      (if v <? 0
       then evs ++ [Printed "audio_playback::write , ret=[%d]\n"]
       else evs,
       Running (A_flag2 fd))
  | A_flag2 fd =>
      if graceful_shutdown g =? 1
      then ([], Running (A_close fd))
      else ([], Running (A_check fd))
  | A_close fd =>
      ([Called (c_close AUDIO_FIFO_PATH fd) v;
        Printed "[thread_ReceiveAudio] thread exit\n"], Finished)
  end.

Definition thread_ReceiveAudio {K : sdk_consts} (avIndex : Z)
  (sched : list input) (g : flags) : list event * flags * status audio_pc :=
  run (audio_step avIndex) sched g (Running A_open).

(** ** [thread_ReceiveVideo] (lines 285-349) *)

Inductive video_pc : Type :=
| V_open                      (* 296: open(VIDEO_FIFO_PATH, O_WRONLY) *)
| V_recv (fd : Z)             (* 308: avRecvFrameData2 *)
| V_usleep (fd : Z)           (* 312: usleep(gSleepUs); continue *)
| V_write (fd ret : Z)        (* 332: write(video_pipe_fd, buf, ret) *)
| V_flag (fd : Z)             (* 337: if (graceful_shutdown == 1) break *)
| V_close (fd : Z).           (* 344: close(video_pipe_fd); return *)

Definition video_step {K : sdk_consts} (avIndex : Z)
  (pc : video_pc) (g : flags) (v : Z) : list event * status video_pc :=
  match pc with
  | V_open =>
      let evs := [Printed "Video starting...\n";
                  Printed "Start IPCAM video stream OK!\n";
                  Called (c_open VIDEO_FIFO_PATH O_WRONLY) v] in
      if v =? -1
      then (evs ++ [Perror "open"], Exited EXIT_FAILURE)
      else (evs, Running (V_recv v))
  | V_recv fd =>
      let evs := [Called (c_avRecvFrameData2 avIndex VIDEO_BUF_SIZE) v] in
      if v =? AV_ER_DATA_NOREADY
      then (evs, Running (V_usleep fd))
      else if v =? AV_ER_SESSION_CLOSE_BY_REMOTE
      then (evs ++ [Printed "[thread_ReceiveVideo] AV_ER_SESSION_CLOSE_BY_REMOTE\n"],
            Running (V_close fd))
      else if v =? AV_ER_REMOTE_TIMEOUT_DISCONNECT
      then (evs ++ [Printed "[thread_ReceiveVideo] AV_ER_REMOTE_TIMEOUT_DISCONNECT\n"],
            Running (V_close fd))
      else if v =? IOTC_ER_INVALID_SID
      then (evs ++ [Printed "[thread_ReceiveVideo] Session cant be used anymore\n"],
            Running (V_close fd))
      else (evs, Running (V_write fd v))
  | V_usleep fd =>
      ([Called (c_usleep gSleepUs) v], Running (V_recv fd))
  | V_write fd ret =>
      let evs := [Called (c_write fd ret) v] in
      (if v <? 0
       then evs ++ [Printed "video_playback::write , ret=[%d]\n"]
       else evs,
       Running (V_flag fd))
  | V_flag fd =>
      if graceful_shutdown g =? 1
      then ([], Running (V_close fd))
      else ([], Running (V_recv fd))
  | V_close fd =>
      ([Called (c_close VIDEO_FIFO_PATH fd) v;
        Printed "[thread_ReceiveVideo] thread exit\n"], Finished)
  end.

Definition thread_ReceiveVideo {K : sdk_consts} (avIndex : Z)
  (sched : list input) (g : flags) : list event * flags * status video_pc :=
  run (video_step avIndex) sched g (Running V_open).

(** ** [thread_bufferClean] (lines 274-283) *)

Inductive clean_pc : Type :=
| B_sleep1                    (* 278: sleep(60) *)
| B_video                     (* 279: avClientCleanVideoBuf(0) *)
| B_sleep2                    (* 280: sleep(60) *)
| B_audio.                    (* 281: avClientCleanAudioBuf(0) *)

Definition clean_step (pc : clean_pc) (g : flags) (v : Z)
  : list event * status clean_pc :=
  match pc with
  | B_sleep1 => ([Called (c_sleep 60) v], Running B_video)
  | B_video => ([Called (c_avClientCleanVideoBuf 0) v], Running B_sleep2)
  | B_sleep2 => ([Called (c_sleep 60) v], Running B_audio)
  | B_audio => ([Called (c_avClientCleanAudioBuf 0) v], Running B_sleep1)
  end.

Definition thread_bufferClean (sched : list input) (g : flags)
  : list event * flags * status clean_pc :=
  run clean_step sched g (Running B_sleep1).

(** Sink writes in a trace, and those that succeeded. *)
Definition is_write (e : event) : bool :=
  match e with
  | Called (c_write _ _) _ => true
  | _ => false
  end.

Definition is_successful_write (e : event) : bool :=
  match e with
  | Called (c_write _ _) ret => 0 <=? ret
  | _ => false
  end.

Definition writes (tr : list event) : nat := List.length (filter is_write tr).

Definition successful_writes (tr : list event) : nat :=
  List.length (filter is_successful_write tr).

(** ** Straight-line code: a monad over schedules

    [thread_ConnectCCR], [start_ipcam_stream] and [main] have no loops.  They
    are written in a monad that threads the flags and the schedule, collects
    the trace, and stops at [exit]. *)

Inductive result (A : Type) : Type :=
| Done (a : A)        (* ran to its [return] *)
| Exit (code : Z)     (* [exit(code)] was called: the process ends *)
| Replaced            (* [execlp] succeeded: the process image is ffmpeg *)
| Blocked.            (* the schedule ends before the next call returns *)
Arguments Done {A} a.
Arguments Exit {A} code.
Arguments Replaced {A}.
Arguments Blocked {A}.

Record out (A : Type) : Type := mkOut {
  events : list event;
  flags_after : flags;
  rest : list input;
  res : result A
}.
Arguments mkOut {A} events flags_after rest res.
Arguments events {A} o.
Arguments flags_after {A} o.
Arguments rest {A} o.
Arguments res {A} o.

Definition M (A : Type) : Type := flags -> list input -> out A.

Definition retM {A : Type} (a : A) : M A :=
  fun g s => mkOut [] g s (Done a).

Definition bind {A B : Type} (m : M A) (k : A -> M B) : M B :=
  fun g s =>
    let o := m g s in
    match res o with
    | Done a =>
        let o' := k a (flags_after o) (rest o) in
        mkOut (events o ++ events o') (flags_after o') (rest o') (res o')
    | Exit code => mkOut (events o) (flags_after o) (rest o) (Exit code)
    | Replaced => mkOut (events o) (flags_after o) (rest o) Replaced
    | Blocked => mkOut (events o) (flags_after o) (rest o) Blocked
    end.

Notation "x <- m ;; k" := (bind m (fun x => k))
  (at level 61, m at next level, right associativity).
Notation "m ;; k" := (bind m (fun _ => k))
  (at level 61, right associativity).

Definition emit (e : event) : M unit :=
  fun g s => mkOut [e] g s (Done tt).

Definition printf (text : string) : M unit := emit (Printed text).

Definition perror (text : string) : M unit := emit (Perror text).

Definition exit {A : Type} (code : Z) : M A :=
  fun g s => mkOut [] g s (Exit code).

Definition replaced {A : Type} : M A :=
  fun g s => mkOut [] g s Replaced.

(** A library call: the signals scheduled before its return are handled
    first (the handler may end the process); then the call returns the
    scheduled value. *)
Fixpoint sys (c : call) (g : flags) (s : list input) : out Z :=
  match s with
  | [] => mkOut [] g [] Blocked
  | Step v :: s' => mkOut [Called c v] g s' (Done v)
  | Signal sg :: s' =>
      match sigpipe_handler sg g with
      | (evs, g', Some code) => mkOut (Caught sg :: evs) g' s' (Exit code)
      | (evs, g', None) =>
          let o := sys c g' s' in
          mkOut (Caught sg :: evs ++ events o) (flags_after o) (rest o) (res o)
      end
  end.

(** [execlp] returns only when it failed. *)
Definition execlp_ffmpeg : M unit :=
  r <- sys c_execlp_ffmpeg ;;
  if r <? 0 then retM tt else replaced.

(** [start_ipcam_stream] (lines 352-395): 1 when the four commands were
    accepted, 0 at the first one that was not.  In the first two tests the
    source assigns the comparison itself to [ret]
    ([(ret = avSendIOCtrl(..) < 0)]); the branch taken is still the one for
    a negative return value. *)
Definition start_ipcam_stream (avIndex : Z) : M Z :=
  r <- sys (c_avSendIOCtrl avIndex IOTYPE_0x5000) ;;
  if r <? 0 then printf "start_ipcam_stream failed[%d]\n" ;; retM 0 else
  r <- sys (c_avSendIOCtrl avIndex IOTYPE_USER_IPCAM_SETSTREAMCTRL_REQ) ;;
  if r <? 0 then printf "start_ipcam_stream failed[%d]\n" ;; retM 0 else
  r <- sys (c_avSendIOCtrl avIndex IOTYPE_USER_IPCAM_START) ;;
  if r <? 0 then printf "start_ipcam_stream failed[%d]\n" ;; retM 0 else
  r <- sys (c_avSendIOCtrl avIndex IOTYPE_USER_IPCAM_AUDIOSTART) ;;
  if r <? 0 then printf "start_ipcam_stream failed[%d]\n" ;; retM 0 else
  retM 1.

(** Lines 457-484: the three threads are created, then the two receive
    threads are joined.  [pthread_create] returns 0 and stores a non-null
    handle, so the guards [ThreadVideo_ID != 0] and [ThreadAudio_ID != 0] of
    the joins hold whenever they are reached. *)
Definition run_threads {K : sdk_consts} : M unit :=
  printf "Start IP Camera...\n" ;;
  r <- sys (c_pthread_create thread_ReceiveVideo_fn) ;;
  if negb (r =? 0)
  then printf "Create Video Receive thread failed\n" ;; exit (-1) else
  r <- sys (c_pthread_create thread_ReceiveAudio_fn) ;;
  if negb (r =? 0)
  then printf "Create Audio Receive thread failed\n" ;; exit (-1) else
  r <- sys (c_pthread_create thread_bufferClean_fn) ;;
  if negb (r =? 0)
  then printf "Create Audio Receive thread failed\n" ;; exit (-1) else
  sys (c_pthread_join thread_ReceiveVideo_fn) ;;
  sys (c_pthread_join thread_ReceiveAudio_fn) ;;
  retM tt.

(** [thread_ConnectCCR] (lines 397-509).  The value returned by [fork]
    comes from the schedule like any other: a schedule whose first step is 0
    describes the child. *)
Definition thread_ConnectCCR {K : sdk_consts} : M unit :=
  ffmpeg_pid <- sys c_fork ;;
  audio_pipe_fd <- sys (c_open AUDIO_FIFO_PATH O_RDWR) ;;
  if audio_pipe_fd =? -1 then perror "open" ;; exit EXIT_FAILURE else
  video_pipe_fd <- sys (c_open VIDEO_FIFO_PATH O_RDWR) ;;
  if video_pipe_fd =? -1 then perror "open" ;; exit EXIT_FAILURE else
  if ffmpeg_pid =? 0
  then execlp_ffmpeg ;; perror "execlp" ;; exit EXIT_FAILURE
  else if ffmpeg_pid =? -1 then perror "fork" ;; exit EXIT_FAILURE else
  tmpSID <- sys c_IOTC_Get_SessionID ;;
  if tmpSID <? 0 then printf "Get session ID failed\n" ;; retM tt else
  SID <- sys (c_IOTC_Connect_ByUID_Parallel tmpSID) ;;
  if SID <? 0 then printf "Connect by UID failed\n" ;; retM tt else
  avIndex <- sys (c_avClientStart2 SID) ;;
  if avIndex <? 0 then printf "avClientStart2 failed[%d]\n" ;; retM tt else
  printf "Client started!\n" ;;
  started <- start_ipcam_stream avIndex ;;
  (if negb (started =? 0) then run_threads else retM tt) ;;
  r <- sys (c_avSendIOCtrl avIndex IOTYPE_USER_IPCAM_STOP) ;;
  if r <? 0 then printf "stop_ipcam_audio failed[%d]\n" ;; retM tt else
  sys (c_close VIDEO_FIFO_PATH video_pipe_fd) ;;
  sys (c_close AUDIO_FIFO_PATH audio_pipe_fd) ;;
  sys (c_kill_SIGKILL ffmpeg_pid) ;;
  sys (c_avClientExit SID) ;;
  sys (c_avClientStop avIndex) ;;
  printf "Client stopped\n" ;;
  sys (c_IOTC_Session_Close SID) ;;
  printf "Session closed\n" ;;
  retM tt.

(** Lines 549-560: the LAN search, which prints one line per device. *)
Fixpoint print_devices (n : nat) : M unit :=
  match n with
  | O => retM tt
  | S n' => printf "UID[%s] Addr[%s:%d]\n" ;; print_devices n'
  end.

Definition lan_search : M unit :=
  psLanSearchInfo <- sys c_malloc ;;
  if negb (psLanSearchInfo =? 0)
  then nDeviceNum <- sys c_IOTC_Lan_Search ;;
       printf "Searching lan for camera's...\n" ;;
       print_devices (Z.to_nat nDeviceNum) ;;
       sys c_free ;;
       retM tt
  else retM tt.

(** [PrintErrHandling] (lines 56-197) only prints: a table from error codes
    to messages. *)
Definition PrintErrHandling (nErr : Z) : M unit := emit (ErrHandling nErr).

(** [main] (lines 511-576), from the point where the handler is installed.
    [Done v] is [return v] from [main].  Creating the connection thread and
    joining it at once runs [thread_ConnectCCR] in between. *)
Definition main {K : sdk_consts} (argc : Z) : M Z :=
  if argc <? 2
  then printf "Argument Error!!!\n" ;;
       printf "Usage: ./AVAPIs_Client UID\n" ;;
       retM (-1)
  else
  r <- sys c_IOTC_Initialize2 ;;
  if negb (r =? IOTC_ER_NoERROR)
  then printf "IOTCAPIs_Device exit...!!\n" ;;
       PrintErrHandling r ;;
       retM 0
  else
  sys c_avInitialize ;;
  sys c_avGetAVApiVer ;;
  printf "LSC Indoor Camera Proxy[1.0] AVAPI version[%s]\n" ;;
  lan_search ;;
  printf "LAN search done...\n" ;;
  r <- sys (c_pthread_create thread_ConnectCCR_fn) ;;
  if negb (r =? 0)
  then printf "pthread_create(ConnectThread_ID), ret=[%d]\n" ;; exit (-1) else
  thread_ConnectCCR ;;
  sys (c_pthread_join thread_ConnectCCR_fn) ;;
  sys c_avDeInitialize ;;
  sys c_IOTC_DeInitialize ;;
  retM 0.

(** ** What the statements about the connection thread speak of *)

(** The steps of the teardown (lines 487-506). *)
Inductive release : Type :=
| R_stop                      (* avSendIOCtrl(.., IOTYPE_USER_IPCAM_STOP, ..) *)
| R_close (sink : fifo)       (* close of a pipe descriptor *)
| R_kill                      (* kill(ffmpeg_pid, SIGKILL) *)
| R_avClientExit
| R_avClientStop
| R_Session_Close.

Definition release_of (cv : call * Z) : option release :=
  match fst cv with
  | c_avSendIOCtrl _ IOTYPE_USER_IPCAM_STOP => Some R_stop
  | c_close sink _ => Some (R_close sink)
  | c_kill_SIGKILL _ => Some R_kill
  | c_avClientExit _ => Some R_avClientExit
  | c_avClientStop _ => Some R_avClientStop
  | c_IOTC_Session_Close _ => Some R_Session_Close
  | _ => None
  end.

Definition teardown (tr : list event) : list release :=
  pick release_of (called tr).

(** Stop the stream, close the sinks, end the consumer, release stream and
    session. *)
Definition teardown_sequence : list release :=
  [R_stop; R_close VIDEO_FIFO_PATH; R_close AUDIO_FIFO_PATH; R_kill;
   R_avClientExit; R_avClientStop; R_Session_Close].

(** The setup commands of [start_ipcam_stream], with the values returned. *)
Definition setup_of (cv : call * Z) : option (ioctrl * Z) :=
  match fst cv with
  | c_avSendIOCtrl _ IOTYPE_USER_IPCAM_STOP => None
  | c_avSendIOCtrl _ cmd => Some (cmd, snd cv)
  | _ => None
  end.

Definition setup_log (tr : list event) : list (ioctrl * Z) :=
  pick setup_of (called tr).

(** Night vision off, stream quality, start video, start audio. *)
Definition setup_sequence : list ioctrl :=
  [IOTYPE_0x5000; IOTYPE_USER_IPCAM_SETSTREAMCTRL_REQ;
   IOTYPE_USER_IPCAM_START; IOTYPE_USER_IPCAM_AUDIOSTART].

(** The threads [pthread_create] was called for. *)
Definition spawn_of (cv : call * Z) : option routine :=
  match fst cv with
  | c_pthread_create f => Some f
  | _ => None
  end.

Definition spawns (tr : list event) : list routine :=
  pick spawn_of (called tr).

(** A failed session-slot acquisition, connect or stream start. *)
Definition is_early_failure (cv : call * Z) : bool :=
  match fst cv with
  | c_IOTC_Get_SessionID
  | c_IOTC_Connect_ByUID_Parallel _
  | c_avClientStart2 _ => snd cv <? 0
  | _ => false
  end.

Definition early_failure (tr : list event) : bool :=
  existsb is_early_failure (called tr).

(** The stop command was sent and accepted. *)
Definition is_stop_accepted (cv : call * Z) : bool :=
  match fst cv with
  | c_avSendIOCtrl _ IOTYPE_USER_IPCAM_STOP => 0 <=? snd cv
  | _ => false
  end.

Definition stop_accepted (tr : list event) : bool :=
  existsb is_stop_accepted (called tr).

(** The specification's reading of the teardown: it releases exactly the
    resources acquired before the point of failure, in the order of the
    teardown sequence.  [acquired tr r] says that the trace shows the
    acquisition which the release [r] undoes. *)
Definition acquires (r : release) (cv : call * Z) : bool :=
  match fst cv, r with
  | c_fork, R_kill => 0 <? snd cv
  | c_open AUDIO_FIFO_PATH _, R_close AUDIO_FIFO_PATH => negb (snd cv =? -1)
  | c_open VIDEO_FIFO_PATH _, R_close VIDEO_FIFO_PATH => negb (snd cv =? -1)
  | c_IOTC_Connect_ByUID_Parallel _, R_Session_Close => 0 <=? snd cv
  | c_avClientStart2 _, R_stop => 0 <=? snd cv
  | c_avClientStart2 _, R_avClientExit => 0 <=? snd cv
  | c_avClientStart2 _, R_avClientStop => 0 <=? snd cv
  | _, _ => false
  end.

Definition acquired (tr : list event) (r : release) : bool :=
  existsb (acquires r) (called tr).

Definition teardown_owed (tr : list event) : list release :=
  filter (acquired tr) teardown_sequence.

(** [execlp] was reached. *)
Definition is_execlp (cv : call * Z) : bool :=
  match fst cv with
  | c_execlp_ffmpeg => true
  | _ => false
  end.

Definition exec_reached (tr : list event) : bool :=
  existsb is_execlp (called tr).

(** An [open] that returned -1. *)
Definition is_failed_open (cv : call * Z) : bool :=
  match fst cv with
  | c_open _ _ => snd cv =? -1
  | _ => false
  end.

Definition open_failed (tr : list event) : bool :=
  existsb is_failed_open (called tr).

(** A failed [open], [fork] or [execlp]: the causes of [exit(EXIT_FAILURE)]. *)
Definition is_startup_failure (cv : call * Z) : bool :=
  match fst cv with
  | c_open _ _ => snd cv =? -1
  | c_fork => snd cv =? -1
  | c_execlp_ffmpeg => snd cv <? 0
  | _ => false
  end.

Definition startup_failure (tr : list event) : bool :=
  existsb is_startup_failure (called tr).

(** A failed [pthread_create]: the cause of [exit(-1)]. *)
Definition is_create_failure (cv : call * Z) : bool :=
  match fst cv with
  | c_pthread_create _ => negb (snd cv =? 0)
  | _ => false
  end.

Definition create_failure (tr : list event) : bool :=
  existsb is_create_failure (called tr).

(** The handler took its forced-shutdown branch. *)
Definition is_forced (m : mark) : bool :=
  match m with
  | MForced => true
  | MCall _ _ => false
  end.

Definition forced (tr : list event) : bool := existsb is_forced (marks tr).

(** A setup command that was not accepted. *)
Definition setup_rejected (cv : ioctrl * Z) : bool := snd cv <? 0.

(** The stop command was sent and rejected. *)
Definition is_stop_rejected (cv : call * Z) : bool :=
  match fst cv with
  | c_avSendIOCtrl _ IOTYPE_USER_IPCAM_STOP => snd cv <? 0
  | _ => false
  end.

Definition stop_rejected (tr : list event) : bool :=
  existsb is_stop_rejected (called tr).

(** [IOTC_Initialize2] did not return [IOTC_ER_NoERROR]. *)
Definition is_init_failure {K : sdk_consts} (cv : call * Z) : bool :=
  match fst cv with
  | c_IOTC_Initialize2 => negb (snd cv =? IOTC_ER_NoERROR)
  | _ => false
  end.

Definition init_failed {K : sdk_consts} (tr : list event) : bool :=
  existsb is_init_failure (called tr).

(** The three receive-side threads, in the order they are created. *)
Definition worker_threads : list routine :=
  [thread_ReceiveVideo_fn; thread_ReceiveAudio_fn; thread_bufferClean_fn].

(** The status [main] ends with when it ends by [exit]. *)
Definition exit_code_of {K : sdk_consts} (tr : list event) : Z :=
  if forced tr then 1
  else if create_failure tr then -1
  else EXIT_FAILURE.

Definition prefix_of {A : Type} (l1 l2 : list A) : Prop :=
  exists l, l2 = l1 ++ l.

(** [Q] holds of what is observed of [m] after [l], and of its result,
    whatever the flags and the schedule. *)
Definition holds {A : Type} (l : list mark)
  (Q : list mark -> result A -> Prop) (m : M A) : Prop :=
  forall g s, Q (l ++ marks (events (m g s))) (res (m g s)).

(** A schedule without signals: the listed values, one per statement. *)
Definition steps (vs : list Z) : list input := map Step vs.

(** [m] runs to its end on every schedule without signals that holds at
    least [n] values, and consumes at most [n] of them. *)
Definition returns_within {A : Type} (n : nat) (m : M A) : Prop :=
  forall (g : flags) (vs : list Z),
    (n <= List.length vs)%nat ->
    res (m g (steps vs)) <> Blocked /\
    exists vs', rest (m g (steps vs)) = steps vs' /\
                (List.length vs <= List.length vs' + n)%nat.

Definition budget_left {PC : Type} (budget : PC -> nat) (st : status PC) : nat :=
  match st with
  | Running pc => budget pc
  | _ => 0%nat
  end.

(** Writes still ahead of a statement when the request is pending. *)
Definition audio_budget (pc : audio_pc) : nat :=
  match pc with
  | A_write _ _ => 1
  | _ => 0
  end.

Definition video_budget (pc : video_pc) : nat :=
  match pc with
  | V_flag _ | V_close _ => 0
  | _ => 1
  end.

(** A check of a trace of the audio thread: the call that follows a receive
    which returned [AV_ER_LOSED_THIS_FRAME] is the poll [avCheckAudioBuf],
    never a write or a close.  [pending] says that such a receive was the
    last call seen. *)
Fixpoint lost_frames_skipped {K : sdk_consts} (pending : bool)
  (tr : list event) : bool :=
  match tr with
  | [] => true
  | Called c v :: tr' =>
      match c with
      | c_avCheckAudioBuf _ => lost_frames_skipped false tr'
      | c_avRecvAudioData _ _ =>
          negb pending
          && lost_frames_skipped (v =? AV_ER_LOSED_THIS_FRAME) tr'
      | _ => negb pending && lost_frames_skipped false tr'
      end
  | _ :: tr' => lost_frames_skipped pending tr'
  end.

(** Where the audio thread stands when a lost frame was the last call. *)
Definition at_poll (pending : bool) (st : status audio_pc) : Prop :=
  pending = true -> exists fd, st = Running (A_check fd).

(** ** Schedules used as examples *)

(** Everything succeeds and both receive threads are joined. *)
Definition run_ok : list input :=
  steps [1234; 3; 4; 0; 1; 2; 0; 0; 0; 0; 0; 0; 0; 0; 0; 0; 0; 0; 0; 0; 0; 0].

(** [IOTC_Get_SessionID] fails. *)
Definition run_slot_fails : list input := steps [1234; 3; 4; -1].

(** [IOTC_Connect_ByUID_Parallel] fails. *)
Definition run_connect_fails : list input := steps [1234; 3; 4; 0; -1].

(** The second setup command is rejected. *)
Definition run_setup_fails : list input :=
  steps [1234; 3; 4; 0; 1; 2; 0; -1; 0; 0; 0; 0; 0; 0; 0].

(** Everything succeeds up to the stop command, which is rejected. *)
Definition run_stop_fails : list input :=
  steps [1234; 3; 4; 0; 1; 2; 0; 0; 0; 0; 0; 0; 0; 0; 0; -1].

(** The child of the [fork]. *)
Definition run_child : list input := steps [0; 3; 4; 0].

(** [main]: [IOTC_Initialize2] fails. *)
Definition run_init_fails : list input := steps [-1].

(** [main]: the connection thread cannot open the audio pipe. *)
Definition run_open_fails : list input := steps [0; 0; 0; 0; 0; 1234; -1].

(** The video thread: the pipe opens, an interrupt arrives, then a frame of
    100 bytes is received. *)
Definition run_video_cancelled : list input :=
  [Step 5; Signal SIGINT; Step 100; Step 100; Step 0; Step 0].

(** The audio thread under the same circumstances. *)
Definition run_audio_cancelled : list input :=
  [Step 5; Signal SIGINT; Step 30; Step 100; Step 0; Step 0].

(** ** Monitors: checks of the calls of a run

    A monitor reads the calls of a trace in order; [delta] gives its next
    state, or [None] when the call is one the property forbids. *)
Fixpoint monitor {S : Type} (delta : S -> call * Z -> option S)
  (s : S) (l : list (call * Z)) : option S :=
  match l with
  | [] => Some s
  | cv :: l' =>
      match delta s cv with
      | Some s' => monitor delta s' l'
      | None => None
      end
  end.

(** The signals of a schedule that are interrupts. *)
Definition is_interrupt (i : input) : bool :=
  match i with
  | Signal SIGINT => true
  | _ => false
  end.

(** [avRecvAudioData] is called only right after a poll that reported at
    least 25 buffered frames.  The state says whether the last call was such
    a poll. *)
Definition gate_delta (ready : bool) (cv : call * Z) : option bool :=
  match fst cv with
  | c_avCheckAudioBuf _ => Some (25 <=? snd cv)
  | c_avRecvAudioData _ _ => if ready then Some false else None
  | _ => Some false
  end.

Definition gate_at (ready : bool) (g : flags) (st : status audio_pc) : Prop :=
  match st with
  | Running (A_recv _) => ready = true
  | _ => True
  end.

(** What a receive thread holds: the descriptor its [open] returned and,
    right after a receive, the value that receive returned. *)
Record relay_state : Type := mkRelay {
  opened : option Z;
  received : option Z
}.

(** [size_t] has 64 bits (Linux, LP64), [int] has 32. *)
Definition size_t_bits : Z := 64.

(** An [int] passed for a [size_t] parameter. *)
Definition to_size_t (n : Z) : Z := n mod 2 ^ size_t_bits.

Definition is_int (v : Z) : bool := (- 2 ^ 31 <=? v) && (v <? 2 ^ 31).

(** A schedule whose values are [int]s, as the values returned to [ret]
    are. *)
Definition int_input (i : input) : bool :=
  match i with
  | Step v => is_int v
  | Signal _ => true
  end.

Definition int_schedule (sched : list input) : bool := forallb int_input sched.

(** The byte count [write] is asked for when the value a receive returned
    is passed on as it is (lines 256 and 332): that many bytes when the
    value is not negative, and a count beyond any buffer when it is. *)
Definition bytes_requested (ret : Z) : Z :=
  if 0 <=? ret then ret else 2 ^ size_t_bits + ret.

(** Every [write] and [close] is on the descriptor the thread opened, and
    the count every [write] is called with is the one the receive just
    before it determines. *)
Definition count_delta (s : relay_state) (cv : call * Z)
  : option relay_state :=
  match fst cv with
  | c_open _ _ => Some (mkRelay (Some (snd cv)) None)
  | c_avRecvAudioData _ _ => Some (mkRelay (opened s) (Some (snd cv)))
  | c_avRecvFrameData2 _ _ => Some (mkRelay (opened s) (Some (snd cv)))
  | c_write fd len =>
      match opened s, received s with
      | Some fd', Some ret =>
          if (fd =? fd') && (to_size_t len =? bytes_requested ret)
          then Some (mkRelay (opened s) None) else None
      | _, _ => None
      end
  | c_close _ fd =>
      match opened s with
      | Some fd' => if fd =? fd' then Some (mkRelay (opened s) None) else None
      | None => None
      end
  | _ => Some (mkRelay (opened s) None)
  end.

Definition received_int (s : relay_state) : Prop :=
  match received s with
  | Some ret => is_int ret = true
  | None => True
  end.

Definition audio_payload_at (s : relay_state) (g : flags)
  (st : status audio_pc) : Prop :=
  match st with
  | Running A_open => True
  | Running (A_check fd) | Running (A_usleep fd) | Running (A_recv fd)
  | Running (A_flag2 fd) | Running (A_close fd) => opened s = Some fd
  | Running (A_flag1 fd ret) | Running (A_write fd ret) =>
      opened s = Some fd /\ received s = Some ret
  | _ => True
  end.

Definition video_payload_at (s : relay_state) (g : flags)
  (st : status video_pc) : Prop :=
  match st with
  | Running V_open => True
  | Running (V_recv fd) | Running (V_usleep fd)
  | Running (V_flag fd) | Running (V_close fd) => opened s = Some fd
  | Running (V_write fd ret) => opened s = Some fd /\ received s = Some ret
  | _ => True
  end.

Definition audio_count_at (s : relay_state) (g : flags)
  (st : status audio_pc) : Prop :=
  audio_payload_at s g st /\ received_int s.

Definition video_count_at (s : relay_state) (g : flags)
  (st : status video_pc) : Prop :=
  video_payload_at s g st /\ received_int s.

(** The video thread: the pipe opens, then the receive returns
    [AV_ER_LOSED_THIS_FRAME], which the video loop does not test for. *)
Definition run_video_lost_frame : list input :=
  [Step 5; Step (-20014); Step (-1); Step 0].

(** The pipe is closed at most once, and nothing is called after that.  The
    state says whether it has been closed. *)
Definition close_delta (closed : bool) (cv : call * Z) : option bool :=
  if closed then None
  else match fst cv with
       | c_close _ _ => Some true
       | _ => Some false
       end.

Definition closed_at {PC : Type} (closed : bool) (g : flags) (st : status PC)
  : Prop :=
  match st with
  | Finished => closed = true
  | _ => closed = false
  end.

(** Why a receive thread left its loop.  [terminal] says that the last call
    was a poll that returned a negative value or a receive that returned one
    of the three terminal codes; [verdict] is what held at the [close]. *)
Record cause_state : Type := mkCause {
  terminal : bool;
  verdict : option bool
}.

Definition is_terminal {K : sdk_consts} (cv : call * Z) : bool :=
  match fst cv with
  | c_avCheckAudioBuf _ => snd cv <? 0
  | c_avRecvAudioData _ _ | c_avRecvFrameData2 _ _ =>
      (snd cv =? AV_ER_SESSION_CLOSE_BY_REMOTE)
      || (snd cv =? AV_ER_REMOTE_TIMEOUT_DISCONNECT)
      || (snd cv =? IOTC_ER_INVALID_SID)
  | _ => false
  end.

Definition cause_delta {K : sdk_consts} (s : cause_state) (cv : call * Z)
  : option cause_state :=
  match fst cv with
  | c_close _ _ => Some (mkCause false (Some (terminal s)))
  | _ => Some (mkCause (is_terminal cv) (verdict s))
  end.

Definition audio_cause_at (s : cause_state) (g : flags)
  (st : status audio_pc) : Prop :=
  match st with
  | Running (A_close _) => graceful_shutdown g = 1 \/ terminal s = true
  | Finished => graceful_shutdown g = 1 \/ verdict s = Some true
  | _ => True
  end.

Definition video_cause_at (s : cause_state) (g : flags)
  (st : status video_pc) : Prop :=
  match st with
  | Running (V_close _) => graceful_shutdown g = 1 \/ terminal s = true
  | Finished => graceful_shutdown g = 1 \/ verdict s = Some true
  | _ => True
  end.

(** Schedules on which no data is ready: the audio poll returns the listed
    values, the video receive returns [AV_ER_DATA_NOREADY] [n] times; each
    is followed by the return of [usleep]. *)
Definition audio_idle (vs : list Z) : list input :=
  flat_map (fun v => [Step v; Step 0]) vs.

Definition audio_idle_trace (avIndex : Z) (vs : list Z) : list event :=
  flat_map (fun v => [Called (c_avCheckAudioBuf avIndex) v;
                      Called (c_usleep gSleepUs) 0]) vs.

Fixpoint video_idle {K : sdk_consts} (n : nat) : list input :=
  match n with
  | O => []
  | S n' => Step AV_ER_DATA_NOREADY :: Step 0 :: video_idle n'
  end.

Fixpoint video_idle_trace {K : sdk_consts} (avIndex : Z) (n : nat)
  : list event :=
  match n with
  | O => []
  | S n' =>
      Called (c_avRecvFrameData2 avIndex VIDEO_BUF_SIZE) AV_ER_DATA_NOREADY
        :: Called (c_usleep gSleepUs) 0
        :: video_idle_trace avIndex n'
  end.

(** After a terminal condition the only call left is the [close].  The
    state says whether the last call met a terminal condition. *)
Definition final_delta {K : sdk_consts} (ended : bool) (cv : call * Z)
  : option bool :=
  if ended
  then match fst cv with
       | c_close _ _ => Some false
       | _ => None
       end
  else Some (is_terminal cv).

Definition final_at {PC : Type} (closing : PC -> bool)
  (ended : bool) (g : flags) (st : status PC) : Prop :=
  match st with
  | Running pc => ended = true -> closing pc = true
  | _ => True
  end.

Definition audio_closing (pc : audio_pc) : bool :=
  match pc with
  | A_close _ => true
  | _ => false
  end.

Definition video_closing (pc : video_pc) : bool :=
  match pc with
  | V_close _ => true
  | _ => false
  end.

(** In the video test sequence [AV_ER_DATA_NOREADY] comes first; it is a
    different value from the three terminal codes. *)
Definition noready_distinct (K : sdk_consts) : Prop :=
  AV_ER_DATA_NOREADY <> AV_ER_SESSION_CLOSE_BY_REMOTE /\
  AV_ER_DATA_NOREADY <> AV_ER_REMOTE_TIMEOUT_DISCONNECT /\
  AV_ER_DATA_NOREADY <> IOTC_ER_INVALID_SID.

(** [usleep] is called for [gSleepUs] microseconds, and only right after a
    poll that found 0 to 24 frames or a video receive that returned
    [AV_ER_DATA_NOREADY].  The state says whether the last call was one of
    these. *)
Definition sleep_delta {K : sdk_consts} (idle : bool) (cv : call * Z)
  : option bool :=
  match fst cv with
  | c_usleep us => if idle && (us =? gSleepUs) then Some false else None
  | c_avCheckAudioBuf _ => Some ((0 <=? snd cv) && (snd cv <? 25))
  | c_avRecvFrameData2 _ _ => Some (snd cv =? AV_ER_DATA_NOREADY)
  | _ => Some false
  end.

Definition audio_sleep_at (idle : bool) (g : flags) (st : status audio_pc)
  : Prop :=
  match st with
  | Running (A_usleep _) => idle = true
  | _ => True
  end.

Definition video_sleep_at (idle : bool) (g : flags) (st : status video_pc)
  : Prop :=
  match st with
  | Running (V_usleep _) => idle = true
  | _ => True
  end.

(** ** More of what the connection thread and [main] show *)

(** The teardown calls themselves, with their arguments. *)
Definition release_call (cv : call * Z) : option call :=
  match release_of cv with
  | Some _ => Some (fst cv)
  | None => None
  end.

Definition release_calls (tr : list event) : list call :=
  pick release_call (called tr).

(** The thread handling of the connection thread and the stop command that
    starts the teardown. *)
Inductive phase : Type :=
| P_create (f : routine)
| P_join (f : routine)
| P_stop.

Definition phase_of (cv : call * Z) : option phase :=
  match fst cv with
  | c_pthread_create f => Some (P_create f)
  | c_pthread_join f => Some (P_join f)
  | c_avSendIOCtrl _ IOTYPE_USER_IPCAM_STOP => Some P_stop
  | _ => None
  end.

Definition phases (tr : list event) : list phase :=
  pick phase_of (called tr).

(** Create the three threads, join the two receive threads, then stop. *)
Definition streaming_phases : list phase :=
  [P_create thread_ReceiveVideo_fn; P_create thread_ReceiveAudio_fn;
   P_create thread_bufferClean_fn;
   P_join thread_ReceiveVideo_fn; P_join thread_ReceiveAudio_fn; P_stop].

(** The calls by which [main] brings the SDK up and down, and its join. *)
Definition lifecycle_of (cv : call * Z) : option call :=
  match fst cv with
  | c_IOTC_Initialize2 | c_avInitialize | c_avDeInitialize
  | c_IOTC_DeInitialize | c_pthread_join thread_ConnectCCR_fn =>
      Some (fst cv)
  | _ => None
  end.

Definition lifecycle (tr : list event) : list call :=
  pick lifecycle_of (called tr).

Definition full_lifecycle : list call :=
  [c_IOTC_Initialize2; c_avInitialize; c_pthread_join thread_ConnectCCR_fn;
   c_avDeInitialize; c_IOTC_DeInitialize].

(** The calls of the LAN search, with the values returned. *)
Definition lan_of (cv : call * Z) : option (call * Z) :=
  match fst cv with
  | c_malloc | c_IOTC_Lan_Search | c_free => Some cv
  | _ => None
  end.

Definition lan_calls (tr : list event) : list (call * Z) :=
  pick lan_of (called tr).

(** The buffer is searched and freed only when [malloc] returned it. *)
Definition lan_paired (l : list (call * Z)) : Prop :=
  match l with
  | [] => True
  | (c_malloc, p) :: others =>
      if p =? 0 then others = []
      else prefix_of (map fst others) [c_IOTC_Lan_Search; c_free]
  | _ => False
  end.

(** A setup command that was accepted. *)
Definition accepted (cv : call * Z) : bool := 0 <=? snd cv.

(** A schedule with its signals removed. *)
Definition is_step (i : input) : bool :=
  match i with
  | Step _ => true
  | Signal _ => false
  end.

Definition strip (s : list input) : list input := filter is_step s.

(** At most one interrupt in all, counting one that is already pending:
    the handler will not take its forced branch. *)
Definition calm (g : flags) (s : list input) : Prop :=
  (List.length (filter is_interrupt s)
   + (if Z.eqb (sigkill g) 1 then 1 else 0) <= 1)%nat.

(** [m] does the same with and without the signals of a calm schedule: the
    same calls with the same results, and the same outcome. *)
Definition unmoved {A : Type} (m : M A) : Prop :=
  forall (g g' : flags) (s : list input),
    calm g s ->
    called (events (m g s)) = called (events (m g' (strip s))) /\
    res (m g s) = res (m g' (strip s)) /\
    rest (m g' (strip s)) = strip (rest (m g s)) /\
    calm (flags_after (m g s)) (rest (m g s)).

(** ** [PrintErrHandling] (lines 56-197)

    The [switch] as a table from the value of each [case] label to the
    format strings of its [printf]s, in order.  The labels are macros of
    [IOTCAPIs.h]; their values are the ones the comments of the source give
    them.  A code without a [case] falls to [default], which prints
    nothing. *)
Local Open Scope string_scope.

Definition err_table : list (Z * list string) :=
  [
   (* IOTC_ER_SERVER_NOT_RESPONSE *)
   (-1, ["[Error code : %d]\n"; "Master doesn't respond.\n"; "Please check the network wheather it could connect to the Internet.\n"]);
   (* IOTC_ER_FAIL_RESOLVE_HOSTNAME *)
   (-2, ["[Error code : %d]\n"; "Can't resolve hostname.\n"]);
   (* IOTC_ER_ALREADY_INITIALIZED *)
   (-3, ["[Error code : %d]\n"; "Already initialized.\n"]);
   (* IOTC_ER_FAIL_CREATE_MUTEX *)
   (-4, ["[Error code : %d]\n"; "Can't create mutex.\n"]);
   (* IOTC_ER_FAIL_CREATE_THREAD *)
   (-5, ["[Error code : %d]\n"; "Can't create thread.\n"]);
   (* IOTC_ER_UNLICENSE *)
   (-10, ["[Error code : %d]\n"; "This UID is unlicense.\n"; "Check your UID.\n"]);
   (* IOTC_ER_NOT_INITIALIZED *)
   (-12, ["[Error code : %d]\n"; "Please initialize the IOTCAPI first.\n"]);
   (* IOTC_ER_TIMEOUT *)
   (-13, []);
   (* IOTC_ER_INVALID_SID *)
   (-14, ["[Error code : %d]\n"; "This SID is invalid.\n"; "Please check it again.\n"]);
   (* IOTC_ER_EXCEED_MAX_SESSION *)
   (-18, ["[Error code : %d]\n"; "[Warning]\n"; "The amount of session reach to the maximum.\n"; "It cannot be connected unless the session is released.\n"]);
   (* IOTC_ER_CAN_NOT_FIND_DEVICE *)
   (-19, ["[Error code : %d]\n"; "Device didn't register on server, so we can't find device.\n"; "Please check the device again.\n"; "Retry...\n"]);
   (* IOTC_ER_SESSION_CLOSE_BY_REMOTE *)
   (-22, ["[Error code : %d]\n"; "Session is closed by remote so we can't access.\n"; "Please close it or establish session again.\n"]);
   (* IOTC_ER_REMOTE_TIMEOUT_DISCONNECT *)
   (-23, ["[Error code : %d]\n"; "We can't receive an acknowledgement character within a TIMEOUT.\n"; "It might that the session is disconnected by remote.\n"; "Please check the network wheather it is busy or not.\n"; "And check the device and user equipment work well.\n"]);
   (* IOTC_ER_DEVICE_NOT_LISTENING *)
   (-24, ["[Error code : %d]\n"; "Device doesn't listen or the sessions of device reach to maximum.\n"; "Please release the session and check the device wheather it listen or not.\n"]);
   (* IOTC_ER_CH_NOT_ON *)
   (-26, ["[Error code : %d]\n"; "Channel isn't on.\n"; "Please open it by IOTC_Session_Channel_ON() or IOTC_Session_Get_Free_Channel()\n"; "Retry...\n"]);
   (* IOTC_ER_SESSION_NO_FREE_CHANNEL *)
   (-31, ["[Error code : %d]\n"; "All channels are occupied.\n"; "Please release some channel.\n"]);
   (* IOTC_ER_TCP_TRAVEL_FAILED *)
   (-32, ["[Error code : %d]\n"; "Device can't connect to Master.\n"; "Don't let device use proxy.\n"; "Close firewall of device.\n"; "Or open device's TCP port 80, 443, 8080, 8000, 21047.\n"]);
   (* IOTC_ER_TCP_CONNECT_TO_SERVER_FAILED *)
   (-33, ["[Error code : %d]\n"; "Device can't connect to server by TCP.\n"; "Don't let server use proxy.\n"; "Close firewall of server.\n"; "Or open server's TCP port 80, 443, 8080, 8000, 21047.\n"; "Retry...\n"]);
   (* IOTC_ER_NO_PERMISSION *)
   (-40, ["[Error code : %d]\n"; "This UID's license doesn't support TCP.\n"]);
   (* IOTC_ER_NETWORK_UNREACHABLE *)
   (-41, ["[Error code : %d]\n"; "Network is unreachable.\n"; "Please check your network.\n"; "Retry...\n"]);
   (* IOTC_ER_FAIL_SETUP_RELAY *)
   (-42, ["[Error code : %d]\n"; "Client can't connect to a device via Lan, P2P, and Relay mode\n"]);
   (* IOTC_ER_NOT_SUPPORT_RELAY *)
   (-43, ["[Error code : %d]\n"; "Server doesn't support UDP relay mode.\n"; "So client can't use UDP relay to connect to a device.\n"])
 ].

Local Close Scope string_scope.

Definition err_lines (nErr : Z) : list string :=
  match find (fun e => fst e =? nErr) err_table with
  | Some e => snd e
  | None => []
  end.

Definition err_codes : list Z := map fst err_table.

(** The codes after which the table tells the user that the program
    retries. *)
Definition retry_codes : list Z := [-19; -26; -33; -41].

(** ** The version string of [main] (lines 539-542) *)

(** Byte [i] of [avVer] as [p] reads it (line 540: [p] points to the bytes
    of [avVer] as unsigned chars), on the little-endian targets the program
    is built for. *)
Definition version_byte (avVer : Z) (i : Z) : Z :=
  Z.land (Z.shiftr avVer (8 * i)) 255.

(** [%d]. *)
Definition fmt_d (n : Z) : string :=
  DecimalString.NilZero.string_of_int (Z.to_int n).

(** [sprintf(szAVVer, "%d.%d.%d.%d", p[3], p[2], p[1], p[0])]: the text
    written, without the terminating NUL. *)
Definition szAVVer (avVer : Z) : string :=
  (fmt_d (version_byte avVer 3) ++ "." ++ fmt_d (version_byte avVer 2) ++ "."
   ++ fmt_d (version_byte avVer 1) ++ "." ++ fmt_d (version_byte avVer 0))%string.

(** [char szAVVer[16]]. *)
Definition szAVVer_size : nat := 16.

(** * Properties *)

(** ** Lists and projections *)

Lemma pick_app {A B : Type} (f : A -> option B) (l1 l2 : list A) :
  pick f (l1 ++ l2) = pick f l1 ++ pick f l2.
Proof.
  induction l1 as [|a l1 IH]; simpl; [reflexivity|].
  destruct (f a); simpl; now rewrite IH.
Qed.

Lemma marks_app (l1 l2 : list event) :
  marks (l1 ++ l2) = marks l1 ++ marks l2.
Proof. apply pick_app. Qed.

Lemma called_app (l1 l2 : list event) :
  called (l1 ++ l2) = called l1 ++ called l2.
Proof. unfold called. now rewrite marks_app, pick_app. Qed.

Lemma count_printed_app (text : string) (l1 l2 : list event) :
  count_printed text (l1 ++ l2)
  = (count_printed text l1 + count_printed text l2)%nat.
Proof. unfold count_printed. now rewrite filter_app, length_app. Qed.

Lemma prefix_of_NoDup {A : Type} (l1 l2 : list A) :
  prefix_of l1 l2 -> NoDup l2 -> NoDup l1.
Proof. intros [l ->] H. now apply NoDup_app_remove_r in H. Qed.

(** ** The signal handler *)

Lemma handler_keeps_inv (sg : signal) (g : flags) :
  flags_inv g -> flags_inv (snd (fst (sigpipe_handler sg g))).
Proof.
  intros H. destruct sg; simpl; try assumption.
  destruct (sigkill g =? 1); simpl; [assumption|].
  right. now split.
Qed.

(** The handler never clears a request. *)
Lemma handler_keeps_request (sg : signal) (g : flags) :
  graceful_shutdown g = 1 ->
  graceful_shutdown (snd (fst (sigpipe_handler sg g))) = 1.
Proof.
  intros H. destruct sg; simpl; try assumption.
  now destruct (sigkill g =? 1).
Qed.

(** Once a request is pending, the next interrupt ends the process. *)
Lemma deliver_pending (sigs : list signal) (g : flags) :
  sigkill g = 1 ->
  let '(tr, g', ex) := deliver sigs g in
  g' = g /\
  ex = (if (1 <=? count_sigint sigs)%nat then Some 1 else None) /\
  count_printed msg_graceful tr = 0%nat /\
  count_printed msg_forced tr = (if (1 <=? count_sigint sigs)%nat then 1%nat else 0%nat) /\
  calls tr = [].
Proof.
  intros Hk. induction sigs as [|sg sigs IH]; simpl.
  - repeat split; reflexivity.
  - destruct sg; simpl.
    + destruct (deliver sigs g) as [[tr g'] ex].
      destruct IH as (-> & -> & H1 & H2 & H3).
      unfold count_sigint in *. simpl.
      repeat split; try assumption.
    + rewrite Hk. simpl. repeat split; reflexivity.
    + destruct (deliver sigs g) as [[tr g'] ex].
      destruct IH as (-> & -> & H1 & H2 & H3).
      unfold count_sigint in *. simpl.
      repeat split; assumption.
Qed.

(** C5. The shutdown state machine has two levels.  Delivered to the initial
    flags, a sequence of signals with no interrupt leaves the flag clear;
    the first interrupt sets [graceful_shutdown] (the assignment runs once,
    with its message) and does not end the process; the second interrupt
    ends it with [exit(1)], and the handler performs no call at all (no
    sink or stream release).  The process is ended by the handler only from
    a state where the request is pending. *)
Theorem C5_two_level_shutdown :
  forall sigs : list signal,
    let n := count_sigint sigs in
    let '(tr, g, ex) := deliver sigs flags0 in
    graceful_shutdown g = (if (n =? 0)%nat then 0 else 1) /\
    ex = (if (2 <=? n)%nat then Some 1 else None) /\
    count_printed msg_graceful tr = Nat.min n 1 /\
    count_printed msg_forced tr = (if (2 <=? n)%nat then 1%nat else 0%nat) /\
    calls tr = [] /\
    match ex with
    | Some _ => graceful_shutdown g = 1 /\ sigkill g = 1
    | None => True
    end.
Proof.
  induction sigs as [|sg sigs IH]; simpl.
  - repeat split; reflexivity.
  - destruct sg; simpl.
    + destruct (deliver sigs flags0) as [[tr g] ex].
      unfold count_sigint in *. simpl in *. exact IH.
    + clear IH.
      pose proof (deliver_pending sigs {| graceful_shutdown := 1; sigkill := 1 |}
                    eq_refl) as P.
      destruct (deliver sigs _) as [[tr g] ex].
      destruct P as (-> & -> & H1 & H2 & H3).
      unfold count_sigint in *. simpl.
      set (m := List.length (filter is_sigint sigs)) in *.
      change (count_printed msg_graceful (Caught SIGINT :: Printed msg_graceful :: tr))
        with (S (count_printed msg_graceful tr)).
      change (count_printed msg_forced (Caught SIGINT :: Printed msg_graceful :: tr))
        with (count_printed msg_forced tr).
      rewrite H1, H2.
      repeat split; try reflexivity; try assumption; destruct m; simpl; auto.
    + destruct (deliver sigs flags0) as [[tr g] ex].
      unfold count_sigint in *. simpl in *. exact IH.
Qed.

(** ** Runs of a thread *)

Section RunFacts.
Context {PC : Type}.
Variable step : PC -> flags -> Z -> list event * status PC.

Lemma run_Finished (sched : list input) (g : flags) :
  run step sched g Finished = ([], g, Finished).
Proof.
  induction sched as [|i sched IH]; simpl; [reflexivity|].
  now rewrite IH.
Qed.

Lemma run_Exited (sched : list input) (g : flags) (code : Z) :
  run step sched g (Exited code) = ([], g, Exited code).
Proof.
  induction sched as [|i sched IH]; simpl; [reflexivity|].
  now rewrite IH.
Qed.

Lemma run_app (s1 s2 : list input) (g : flags) (st : status PC) :
  run step (s1 ++ s2) g st =
  let r1 := run step s1 g st in
  let r2 := resume step s2 r1 in
  (trace_of r1 ++ trace_of r2, flags_of r2, status_of r2).
Proof.
  revert g st. induction s1 as [|i s1 IH]; intros g st; simpl.
  - unfold resume, trace_of, flags_of, status_of. simpl.
    now destruct (run step s2 g st) as [[tr g'] st'].
  - destruct (exec step i g st) as [[evs g1] st1].
    rewrite IH. simpl.
    destruct (run step s1 g1 st1) as [[tr1 g2] st2].
    unfold resume, trace_of, flags_of, status_of. simpl.
    destruct (run step s2 g2 st2) as [[tr2 g3] st3]. simpl.
    now rewrite app_assoc.
Qed.

(** Right after an interrupt the request is pending, unless the thread is
    no longer running. *)
Lemma run_interrupt_pending (pre : list input) (g : flags) (st : status PC) :
  let r := run step (pre ++ [Signal SIGINT]) g st in
  match status_of r with
  | Running _ => graceful_shutdown (flags_of r) = 1
  | _ => True
  end.
Proof.
  rewrite run_app. simpl.
  destruct (run step pre g st) as [[tr1 g1] st1].
  unfold resume, trace_of, flags_of, status_of. simpl.
  destruct st1 as [pc| |code]; simpl; try exact I.
  destruct (negb (sigkill g1 =? 1)); simpl; [reflexivity|exact I].
Qed.
End RunFacts.

Lemma writes_app (l1 l2 : list event) :
  writes (l1 ++ l2) = (writes l1 + writes l2)%nat.
Proof. unfold writes. now rewrite filter_app, length_app. Qed.

Lemma successful_le_writes (tr : list event) :
  (successful_writes tr <= writes tr)%nat.
Proof.
  unfold successful_writes, writes.
  induction tr as [|e tr IH]; simpl; [lia|].
  destruct e as [c v| | | |]; simpl; try exact IH.
  destruct c; simpl; try exact IH.
  destruct (0 <=? v); simpl; lia.
Qed.

(** ** The receive threads once a request is pending *)

Lemma handler_no_write (sg : signal) (g : flags) :
  writes (fst (fst (sigpipe_handler sg g))) = 0%nat.
Proof.
  destruct sg; simpl; try reflexivity.
  now destruct (sigkill g =? 1).
Qed.

Section Budget.
Context {PC : Type}.
Variable step : PC -> flags -> Z -> list event * status PC.
Variable budget : PC -> nat.

(** Every statement, executed while the request is pending, pays for its
    write out of the budget. *)
Hypothesis step_pays :
  forall (pc : PC) (g : flags) (v : Z),
    graceful_shutdown g = 1 ->
    (writes (fst (step pc g v)) + budget_left budget (snd (step pc g v))
     <= budget pc)%nat.

Lemma pending_budget (sched : list input) :
  forall (g : flags) (st : status PC),
    graceful_shutdown g = 1 ->
    (writes (trace_of (run step sched g st)) <= budget_left budget st)%nat.
Proof.
  induction sched as [|i sched IH]; intros g st Hg; simpl;
    [unfold trace_of, writes; simpl; lia|].
  destruct st as [pc| |code]; simpl.
  - destruct i as [sg|v].
    + pose proof (handler_no_write sg g) as Hw.
      pose proof (handler_keeps_request sg g Hg) as Hr.
      destruct (sigpipe_handler sg g) as [[evs g'] [code|]]; simpl in *.
      * rewrite run_Exited. unfold trace_of. simpl.
        rewrite app_nil_r.
        change (writes (Caught sg :: evs)) with (writes evs). lia.
      * specialize (IH g' (Running pc) Hr).
        destruct (run step sched g' (Running pc)) as [[tr g''] st''].
        unfold trace_of in *. simpl in *.
        change (writes (Caught sg :: evs ++ tr)) with (writes (evs ++ tr)).
        rewrite writes_app, Hw. exact IH.
    + pose proof (step_pays pc g v Hg) as Hp.
      destruct (step pc g v) as [evs st']. simpl in *.
      specialize (IH g st' Hg).
      destruct (run step sched g st') as [[tr g''] st''].
      unfold trace_of in *. simpl in *.
      rewrite writes_app. lia.
  - rewrite run_Finished. unfold trace_of, writes. simpl. lia.
  - rewrite run_Exited. unfold trace_of, writes. simpl. lia.
Qed.
End Budget.

Lemma audio_pending {K : sdk_consts} (avIndex : Z) (sched : list input)
  (g : flags) (pc : audio_pc) :
  graceful_shutdown g = 1 ->
  (writes (trace_of (run (audio_step avIndex) sched g (Running pc)))
   <= audio_budget pc)%nat.
Proof.
  intros Hg.
  apply (pending_budget (audio_step avIndex) audio_budget) with (st := Running pc);
    [|exact Hg].
  clear. intros pc g v Hg.
  destruct pc; simpl; try rewrite Hg; simpl;
    repeat match goal with
           | |- context [if ?b then _ else _] => destruct b; simpl
           end; lia.
Qed.

Lemma video_pending {K : sdk_consts} (avIndex : Z) (sched : list input)
  (g : flags) (pc : video_pc) :
  graceful_shutdown g = 1 ->
  (writes (trace_of (run (video_step avIndex) sched g (Running pc)))
   <= video_budget pc)%nat.
Proof.
  intros Hg.
  apply (pending_budget (video_step avIndex) video_budget) with (st := Running pc);
    [|exact Hg].
  clear. intros pc g v Hg.
  destruct pc; simpl; try rewrite Hg; simpl;
    repeat match goal with
           | |- context [if ?b then _ else _] => destruct b; simpl
           end; lia.
Qed.

(** ** Reasoning about straight-line code *)

Lemma sys_marks (c : call) (s : list input) :
  forall g : flags,
    let o := sys c g s in
    (marks (events o) = [] /\ res o = Blocked) \/
    (marks (events o) = [MForced] /\ res o = Exit 1) \/
    (exists v, marks (events o) = [MCall c v] /\ res o = Done v).
Proof.
  induction s as [|i s IH]; intros g; simpl.
  - left. now split.
  - destruct i as [sg|v]; simpl.
    + destruct sg; simpl.
      * exact (IH g).
      * destruct (sigkill g =? 1); simpl.
        -- right. left. now split.
        -- exact (IH _).
      * exact (IH g).
    + right. right. exists v. now split.
Qed.

Section Rules.
Context {A B : Type}.
Variable l : list mark.
Variable Q : list mark -> result B -> Prop.

Lemma holds_ret (b : B) : Q l (Done b) -> holds l Q (retM b).
Proof. intros H g s. simpl. now rewrite app_nil_r. Qed.

Lemma holds_exit (code : Z) : Q l (Exit code) -> holds l Q (exit code).
Proof. intros H g s. simpl. now rewrite app_nil_r. Qed.

Lemma holds_replaced : Q l Replaced -> holds l Q replaced.
Proof. intros H g s. simpl. now rewrite app_nil_r. Qed.

Lemma holds_bind_ret (a : A) (k : A -> M B) :
  holds l Q (k a) -> holds l Q (bind (retM a) k).
Proof.
  intros H g s. specialize (H g s). unfold bind. simpl.
  now destruct (k a g s).
Qed.

Lemma holds_bind_exit (code : Z) (k : A -> M B) :
  Q l (Exit code) -> holds l Q (bind (exit code) k).
Proof. intros H g s. unfold bind. simpl. now rewrite app_nil_r. Qed.

Lemma holds_bind_replaced (k : A -> M B) :
  Q l Replaced -> holds l Q (bind replaced k).
Proof. intros H g s. unfold bind. simpl. now rewrite app_nil_r. Qed.

Lemma holds_bind_emit (e : event) (k : unit -> M B) :
  mark_of e = None -> holds l Q (k tt) -> holds l Q (bind (emit e) k).
Proof.
  intros He H g s. specialize (H g s). unfold bind, emit. simpl.
  unfold marks in *. simpl. now rewrite He.
Qed.

Lemma holds_bind_sys (c : call) (k : Z -> M B) :
  Q l Blocked ->
  Q (l ++ [MForced]) (Exit 1) ->
  (forall v, holds (l ++ [MCall c v]) Q (k v)) ->
  holds l Q (bind (sys c) k).
Proof.
  intros Hb Hf Hk g s. unfold bind.
  destruct (sys_marks c s g) as [[Hm Hr]|[[Hm Hr]|[v [Hm Hr]]]];
    rewrite Hr; simpl.
  - now rewrite Hm, app_nil_r.
  - now rewrite Hm.
  - rewrite marks_app, Hm, app_assoc. apply Hk.
Qed.
End Rules.

Lemma holds_assoc {A B C : Type} (l : list mark)
  (Q : list mark -> result C -> Prop)
  (m : M A) (f : A -> M B) (k : B -> M C) :
  holds l Q (bind m (fun x => bind (f x) k)) ->
  holds l Q (bind (bind m f) k).
Proof.
  intros H g s. specialize (H g s). revert H. unfold bind.
  destruct (res (m g s)); simpl; try easy.
  destruct (res (f a _ _)); simpl; try easy.
  now rewrite app_assoc.
Qed.

Lemma holds_bind_print_devices {B : Type} (l : list mark)
  (Q : list mark -> result B -> Prop) (n : nat) (k : unit -> M B) :
  holds l Q (k tt) -> holds l Q (bind (print_devices n) k).
Proof.
  intros H. induction n as [|n IH]; simpl.
  - now apply holds_bind_ret.
  - apply holds_assoc. apply holds_bind_emit; [reflexivity|exact IH].
Qed.

Lemma holds_run {A : Type} (Q : list mark -> result A -> Prop) (m : M A) :
  holds [] Q m ->
  forall g s, Q (marks (events (m g s))) (res (m g s)).
Proof. intros H g s. exact (H g s). Qed.

(** One statement of a straight-line routine. *)
Ltac mstep :=
  lazymatch goal with
  | |- holds _ _ (bind (bind _ _) _) => apply holds_assoc
  | |- holds _ _ (bind (sys _) _) =>
      apply holds_bind_sys; [ | | let v := fresh "v" in intros v]
  | |- holds _ _ (bind (emit _) _) => apply holds_bind_emit; [reflexivity|]
  | |- holds _ _ (bind (printf _) _) => apply holds_bind_emit; [reflexivity|]
  | |- holds _ _ (bind (perror _) _) => apply holds_bind_emit; [reflexivity|]
  | |- holds _ _ (bind (PrintErrHandling _) _) =>
      apply holds_bind_emit; [reflexivity|]
  | |- holds _ _ (bind (print_devices _) _) => apply holds_bind_print_devices
  | |- holds _ _ (bind (retM _) _) => apply holds_bind_ret
  | |- holds _ _ (bind (exit _) _) => apply holds_bind_exit
  | |- holds _ _ (bind replaced _) => apply holds_bind_replaced
  | |- holds _ _ (bind (if ?b then _ else _) _) =>
      let E := fresh "E" in destruct b eqn:E
  | |- holds _ _ (if ?b then _ else _) =>
      let E := fresh "E" in destruct b eqn:E
  | |- holds _ _ (retM _) => apply holds_ret
  | |- holds _ _ (exit _) => apply holds_exit
  | |- holds _ _ replaced => apply holds_replaced
  end.

Ltac mrun :=
  unfold thread_ConnectCCR, start_ipcam_stream, run_threads, execlp_ffmpeg,
    lan_search;
  repeat mstep; simpl app.

Ltac use_tests :=
  repeat match goal with
         | E : ?b = _ |- context [?b] => rewrite E
         end.

Ltac bool_lia :=
  repeat match goal with
         | H : (_ || false) = _ |- _ => rewrite orb_false_r in H
         | H : negb _ = true |- _ => apply negb_true_iff in H
         | H : negb _ = false |- _ => apply negb_false_iff in H
         | H : (_ <? _) = true |- _ => apply Z.ltb_lt in H
         | H : (_ <? _) = false |- _ => apply Z.ltb_ge in H
         | H : (_ <=? _) = true |- _ => apply Z.leb_le in H
         | H : (_ <=? _) = false |- _ => apply Z.leb_gt in H
         | H : (_ =? _) = true |- _ => apply Z.eqb_eq in H
         | H : (_ =? _) = false |- _ => apply Z.eqb_neq in H
         end;
  try lia.

(** ** The connection thread *)

Lemma teardown_sequence_NoDup : NoDup teardown_sequence.
Proof.
  unfold teardown_sequence.
  repeat (constructor; [simpl; intuition discriminate|]).
  constructor.
Qed.

Lemma connect_teardown {K : sdk_consts} :
  holds [] (fun l r =>
     let c := pick call_of l in
     prefix_of (pick release_of c) teardown_sequence /\
     (existsb is_early_failure c = true -> pick release_of c = []) /\
     (r = Done tt -> existsb is_stop_accepted c = true ->
      pick release_of c = teardown_sequence)) thread_ConnectCCR.
Proof.
  mrun.
  all: unfold is_early_failure, is_stop_accepted; simpl.
  all: use_tests; simpl.
  all: repeat split.
  all: try (eexists; reflexivity).
  all: try (intros; discriminate).
  all: intros; bool_lia.
Qed.

(** The part of the teardown the code gets right.  In every run of
    [thread_ConnectCCR] the teardown steps executed are an initial part of
    the teardown sequence, so each step runs at most once and nothing is
    released twice; a run with an early failure executes none of them; and
    a run that returns after the stop command was accepted has executed the
    whole sequence exactly once, whether or not the setup commands
    succeeded. *)
Theorem teardown_at_most_once :
  forall (K : sdk_consts) (g : flags) (s : list input),
    let o := thread_ConnectCCR g s in
    prefix_of (teardown (events o)) teardown_sequence /\
    NoDup (teardown (events o)) /\
    (early_failure (events o) = true -> teardown (events o) = []) /\
    (res o = Done tt -> stop_accepted (events o) = true ->
     teardown (events o) = teardown_sequence).
Proof.
  intros K g s o.
  destruct (holds_run _ _ connect_teardown g s) as (H1 & H2 & H3).
  fold o in H1, H2, H3.
  split; [exact H1|].
  split; [exact (prefix_of_NoDup _ _ H1 teardown_sequence_NoDup)|].
  split; [exact H2|exact H3].
Qed.

Lemma teardown_at_most_once_witness :
  teardown (events (thread_ConnectCCR (K := tutk_linux) flags0 run_ok))
  = teardown_sequence /\
  teardown (events (thread_ConnectCCR (K := tutk_linux) flags0 run_setup_fails))
  = teardown_sequence /\
  teardown (events (thread_ConnectCCR (K := tutk_linux) flags0 run_slot_fails))
  = [].
Proof.
  split; [|split].
  - apply (teardown_at_most_once tutk_linux flags0 run_ok); reflexivity.
  - apply (teardown_at_most_once tutk_linux flags0 run_setup_fails);
      reflexivity.
  - apply (teardown_at_most_once tutk_linux flags0 run_slot_fails);
      reflexivity.
Defined.

Lemma connect_early_return {K : sdk_consts} :
  holds [] (fun l r =>
     let c := pick call_of l in
     (existsb is_early_failure c = true ->
      r = Done tt /\ pick release_of c = [] /\
      existsb (acquires (R_close VIDEO_FIFO_PATH)) c = true /\
      existsb (acquires (R_close AUDIO_FIFO_PATH)) c = true) /\
     (r = Done tt -> existsb is_early_failure c = false ->
      existsb is_stop_rejected c = false ->
      pick release_of c = teardown_sequence)) thread_ConnectCCR.
Proof.
  mrun.
  all: unfold is_early_failure, is_stop_rejected, acquires; simpl.
  all: use_tests; simpl.
  all: split; intros.
  all: try discriminate.
  all: try reflexivity.
  all: try solve [exfalso; bool_lia].
  all: repeat split; try reflexivity.
Qed.

(** An early return leaves everything behind.  In every run in which the
    session-slot acquisition, the connect or the stream start fails, the
    routine returns (lines 433, 441 and 449) with both pipes opened and
    without one step of the teardown. *)
Lemma early_return_skips_teardown :
  forall (K : sdk_consts) (g : flags) (s : list input),
    let o := thread_ConnectCCR g s in
    early_failure (events o) = true ->
    res o = Done tt /\
    teardown (events o) = [] /\
    acquired (events o) (R_close VIDEO_FIFO_PATH) = true /\
    acquired (events o) (R_close AUDIO_FIFO_PATH) = true.
Proof.
  intros K g s o.
  destruct (holds_run _ _ connect_early_return g s) as (H1 & _).
  exact H1.
Qed.

(** The other ways to return run the teardown.  A run that returns, with no
    early failure and the stop command not rejected, has executed the whole
    teardown sequence; a failed setup command is among these. *)
Lemma teardown_unless_early_return :
  forall (K : sdk_consts) (g : flags) (s : list input),
    let o := thread_ConnectCCR g s in
    res o = Done tt ->
    early_failure (events o) = false ->
    stop_rejected (events o) = false ->
    teardown (events o) = teardown_sequence.
Proof.
  intros K g s o.
  destruct (holds_run _ _ connect_early_return g s) as (_ & H2).
  exact H2.
Qed.

(** C1.  The teardown is not run on every way out.  When
    [IOTC_Get_SessionID] fails the routine prints the error and returns at
    once (line 433): both pipes are open and the consumer has been forked,
    the teardown owes two [close]s and the [kill], and not one teardown step
    is executed. *)
Lemma C1_early_failure_releases_nothing :
  let o := thread_ConnectCCR (K := tutk_linux) flags0 run_slot_fails in
  res o = Done tt /\
  events o = [Called c_fork 1234;
              Called (c_open AUDIO_FIFO_PATH O_RDWR) 3;
              Called (c_open VIDEO_FIFO_PATH O_RDWR) 4;
              Called c_IOTC_Get_SessionID (-1);
              Printed "Get session ID failed\n"] /\
  teardown_owed (events o)
  = [R_close VIDEO_FIFO_PATH; R_close AUDIO_FIFO_PATH; R_kill] /\
  teardown (events o) = [] /\
  teardown (events o) <> teardown_owed (events o).
Proof. repeat split; try reflexivity. discriminate. Qed.

(** C2.  When the stop command is rejected the routine prints the error and
    returns: no pipe is closed, the consumer is not killed, stream and
    session are not released. *)
Theorem C2_stop_failure_skips_release :
  let o := thread_ConnectCCR (K := tutk_linux) flags0 run_stop_fails in
  res o = Done tt /\
  events o = [Called c_fork 1234;
              Called (c_open AUDIO_FIFO_PATH O_RDWR) 3;
              Called (c_open VIDEO_FIFO_PATH O_RDWR) 4;
              Called c_IOTC_Get_SessionID 0;
              Called (c_IOTC_Connect_ByUID_Parallel 0) 1;
              Called (c_avClientStart2 1) 2;
              Printed "Client started!\n";
              Called (c_avSendIOCtrl 2 IOTYPE_0x5000) 0;
              Called (c_avSendIOCtrl 2 IOTYPE_USER_IPCAM_SETSTREAMCTRL_REQ) 0;
              Called (c_avSendIOCtrl 2 IOTYPE_USER_IPCAM_START) 0;
              Called (c_avSendIOCtrl 2 IOTYPE_USER_IPCAM_AUDIOSTART) 0;
              Printed "Start IP Camera...\n";
              Called (c_pthread_create thread_ReceiveVideo_fn) 0;
              Called (c_pthread_create thread_ReceiveAudio_fn) 0;
              Called (c_pthread_create thread_bufferClean_fn) 0;
              Called (c_pthread_join thread_ReceiveVideo_fn) 0;
              Called (c_pthread_join thread_ReceiveAudio_fn) 0;
              Called (c_avSendIOCtrl 2 IOTYPE_USER_IPCAM_STOP) (-1);
              Printed "stop_ipcam_audio failed[%d]\n"] /\
  teardown (events o) = [R_stop] /\
  teardown_owed (events o) = teardown_sequence.
Proof. repeat split; reflexivity. Qed.

(** The defect behind C2, for every schedule: once the stop command is
    rejected, it stays the only teardown step of the run. *)
Lemma stop_rejected_skips_release {K : sdk_consts} (g : flags) (s : list input) :
  let o := thread_ConnectCCR g s in
  stop_rejected (events o) = true ->
  teardown (events o) = [R_stop] /\ res o = Done tt.
Proof.
  assert (H : holds [] (fun l r =>
     let c := pick call_of l in
     existsb is_stop_rejected c = true ->
     pick release_of c = [R_stop] /\ r = Done tt) thread_ConnectCCR).
  { mrun.
    all: unfold is_stop_rejected; simpl.
    all: use_tests; simpl.
    all: try (intros; discriminate).
    all: intros; try (split; reflexivity); bool_lia. }
  exact (holds_run _ _ H g s).
Qed.

Lemma connect_fork_first {K : sdk_consts} :
  holds [] (fun l r =>
     let c := pick call_of l in
     match map fst c with
     | [] => True
     | c0 :: others => c0 = c_fork /\ ~ In c_fork others
     end /\
     (existsb is_execlp c = true ->
      exists a v x,
        c = [(c_fork, 0); (c_open AUDIO_FIFO_PATH O_RDWR, a);
             (c_open VIDEO_FIFO_PATH O_RDWR, v); (c_execlp_ffmpeg, x)] /\
        a <> -1 /\ v <> -1)) thread_ConnectCCR.
Proof.
  mrun.
  all: unfold is_execlp; simpl.
  all: split;
    [first [exact I|split; [reflexivity|simpl; intuition discriminate]]|].
  all: try (intros; discriminate).
  all: intros _; bool_lia; subst.
  all: eexists _, _, _; split; [reflexivity|split; assumption].
Qed.

(** C3, as the code has it.  [fork] is the first call of the routine and is
    made once: the consumer process is created before the pipes are opened,
    before the session is acquired and before any setup command, hence also
    before the receive threads are created and in runs where a later step
    fails.  In the child, [execlp] of ffmpeg is reached only after both
    pipes have been opened there. *)
Theorem C3_consumer_forked_first :
  forall (K : sdk_consts) (g : flags) (s : list input),
    let o := thread_ConnectCCR g s in
    match calls (events o) with
    | [] => True
    | c0 :: others => c0 = c_fork /\ ~ In c_fork others
    end /\
    (exec_reached (events o) = true ->
     exists a v x,
       called (events o)
       = [(c_fork, 0); (c_open AUDIO_FIFO_PATH O_RDWR, a);
          (c_open VIDEO_FIFO_PATH O_RDWR, v); (c_execlp_ffmpeg, x)] /\
       a <> -1 /\ v <> -1).
Proof.
  intros K g s o. exact (holds_run _ _ connect_fork_first g s).
Qed.

Lemma C3_consumer_forked_first_witness :
  exists a v x,
    called (events (thread_ConnectCCR (K := tutk_linux) flags0 run_child))
    = [(c_fork, 0); (c_open AUDIO_FIFO_PATH O_RDWR, a);
       (c_open VIDEO_FIFO_PATH O_RDWR, v); (c_execlp_ffmpeg, x)] /\
    a <> -1 /\ v <> -1.
Proof.
  apply (C3_consumer_forked_first tutk_linux flags0 run_child). reflexivity.
Defined.

(** C3 as the specification words it fails: the consumer has been forked,
    and in the child ffmpeg has been started, although the connect fails and
    no setup command is ever sent. *)
Lemma C3_consumer_started_before_connect :
  let parent := thread_ConnectCCR (K := tutk_linux) flags0 run_connect_fails in
  let child := thread_ConnectCCR (K := tutk_linux) flags0 run_child in
  res parent = Done tt /\
  called (events parent)
  = [(c_fork, 1234); (c_open AUDIO_FIFO_PATH O_RDWR, 3);
     (c_open VIDEO_FIFO_PATH O_RDWR, 4); (c_IOTC_Get_SessionID, 0);
     (c_IOTC_Connect_ByUID_Parallel 0, -1)] /\
  setup_log (events parent) = [] /\
  res child = Replaced /\
  called (events child)
  = [(c_fork, 0); (c_open AUDIO_FIFO_PATH O_RDWR, 3);
     (c_open VIDEO_FIFO_PATH O_RDWR, 4); (c_execlp_ffmpeg, 0)].
Proof. repeat split; reflexivity. Qed.

Lemma start_ipcam_stream_result (avIndex : Z) :
  holds [] (fun l r =>
     let log := pick setup_of (pick call_of l) in
     match r with
     | Done b =>
         b = (if existsb setup_rejected log then 0 else 1) /\
         (b = 1 -> map fst log = setup_sequence)
     | _ => True
     end) (start_ipcam_stream avIndex).
Proof.
  mrun.
  all: unfold setup_rejected; simpl; try exact I.
  all: use_tests; simpl.
  all: split; [reflexivity|intros; first [discriminate|reflexivity]].
Qed.

Lemma connect_setup {K : sdk_consts} :
  holds [] (fun l r =>
     let c := pick call_of l in
     let log := pick setup_of c in
     prefix_of (map fst log) setup_sequence /\
     Forall (fun cv => 0 <= snd cv) (removelast log) /\
     prefix_of (pick spawn_of c) worker_threads /\
     (existsb setup_rejected log = true -> pick spawn_of c = []) /\
     (pick spawn_of c <> [] ->
      map fst log = setup_sequence /\ Forall (fun cv => 0 <= snd cv) log))
    thread_ConnectCCR.
Proof.
  mrun.
  all: unfold setup_rejected; simpl.
  all: use_tests; simpl.
  all: split; [eexists; reflexivity|].
  all: split; [repeat constructor; simpl; bool_lia|].
  all: split; [eexists; reflexivity|].
  all: split; [intros; first [discriminate|reflexivity]|].
  all: intros H; try (now elim H).
  all: split; [reflexivity|repeat constructor; simpl; bool_lia].
Qed.

(** C7.  The setup commands sent are an initial part of the sequence night
    vision, stream quality, start video, start audio; every command but the
    last one sent was accepted, so a rejected command ends the sequence; and
    the receive threads and the buffer-clean thread are created, in that
    order, only after all four commands were sent and accepted: when a
    command is rejected none of them is created. *)
Theorem C7_setup_all_or_nothing :
  forall (K : sdk_consts) (g : flags) (s : list input),
    let o := thread_ConnectCCR g s in
    let log := setup_log (events o) in
    prefix_of (map fst log) setup_sequence /\
    Forall (fun cv => 0 <= snd cv) (removelast log) /\
    prefix_of (spawns (events o)) worker_threads /\
    (existsb setup_rejected log = true -> spawns (events o) = []) /\
    (spawns (events o) <> [] ->
     map fst log = setup_sequence /\ Forall (fun cv => 0 <= snd cv) log).
Proof.
  intros K g s o log. exact (holds_run _ _ connect_setup g s).
Qed.

Lemma C7_setup_all_or_nothing_witness :
  spawns (events (thread_ConnectCCR (K := tutk_linux) flags0 run_setup_fails))
  = [] /\
  map fst
    (setup_log (events (thread_ConnectCCR (K := tutk_linux) flags0 run_ok)))
  = setup_sequence.
Proof.
  split.
  - apply (C7_setup_all_or_nothing tutk_linux flags0 run_setup_fails).
    reflexivity.
  - apply (C7_setup_all_or_nothing tutk_linux flags0 run_ok). discriminate.
Defined.

(** ** [main] and the exit status *)

Lemma main_exit {K : sdk_consts} (argc : Z) :
  2 <= argc ->
  holds [] (fun l r =>
     let c := pick call_of l in
     match r with
     | Done v => v = 0
     | Exit code =>
         code = (if existsb is_forced l then 1
                 else if existsb is_create_failure c then -1
                 else EXIT_FAILURE) /\
         (existsb is_forced l || existsb is_create_failure c
          || existsb is_startup_failure c = true)
     | _ => True
     end /\
     (existsb is_init_failure c = true -> r = Done 0)) (main argc).
Proof.
  intros Hargc. unfold main.
  destruct (Z.ltb_spec argc 2) as [Hlt|_]; [lia|].
  mrun.
  all: unfold is_create_failure, is_startup_failure, is_init_failure; simpl.
  all: use_tests; simpl.
  all: split; [|intros; first [discriminate|reflexivity]].
  all: first [exact I | reflexivity | split; reflexivity
             | split; [reflexivity|apply orb_true_r]].
Qed.

(** C9, as the code has it.  [main] returns -1 on an argument error, and 0
    in every other run in which it returns: when [IOTC_Initialize2] fails,
    and after the connection thread has returned, whether or not streaming
    ever started.  When the process ends by [exit] instead, the status is 1
    on the handler's forced-shutdown path, -1 when a thread could not be
    created, and [EXIT_FAILURE] when a pipe could not be opened or the
    consumer could not be forked or started. *)
Theorem C9_exit_status :
  forall (K : sdk_consts) (argc : Z) (g : flags) (s : list input),
    let o := main argc g s in
    (argc < 2 -> res o = Done (-1) /\ calls (events o) = []) /\
    (2 <= argc ->
     match res o with
     | Done v => v = 0
     | Exit code =>
         code = exit_code_of (events o) /\
         (forced (events o) || create_failure (events o)
          || startup_failure (events o) = true)
     | _ => True
     end /\
     (init_failed (events o) = true -> res o = Done 0)).
Proof.
  intros K argc g s o. split.
  - intros Hlt. subst o. unfold main.
    destruct (Z.ltb_spec argc 2) as [_|Hge]; [|lia].
    split; reflexivity.
  - intros Hge. exact (holds_run _ _ (main_exit argc Hge) g s).
Qed.

Lemma C9_exit_status_witness :
  res (main (K := tutk_linux) 1 flags0 []) = Done (-1) /\
  res (main (K := tutk_linux) 2 flags0 run_init_fails) = Done 0.
Proof.
  split.
  - apply (C9_exit_status tutk_linux 1 flags0 []). lia.
  - apply (C9_exit_status tutk_linux 2 flags0 run_init_fails);
      [lia|reflexivity].
Defined.

(** C9 as the specification words it fails: a failed transport
    initialisation makes [main] return 0, not -1; and with glibc's
    [EXIT_FAILURE] a pipe that cannot be opened ends the process with status
    1 although no interrupt was delivered. *)
Lemma C9_init_failure_returns_zero :
  let o := main (K := tutk_linux) 2 flags0 run_init_fails in
  let o' := main (K := tutk_linux) 2 flags0 run_open_fails in
  events o = [Called c_IOTC_Initialize2 (-1);
              Printed "IOTCAPIs_Device exit...!!\n";
              ErrHandling (-1)] /\
  res o = Done 0 /\
  res o <> Done (-1) /\
  res o' = Exit 1 /\
  forced (events o') = false.
Proof. repeat split; try reflexivity. discriminate. Qed.

(** ** The receive loops *)

(** C4.  In the video thread a frame received after the interrupt is still
    written to the pipe: the flag is read only after the write (line 337).
    Here the pipe is descriptor 5, the interrupt arrives before
    [avRecvFrameData2] returns 100 bytes, and [write(5, buf, 100)] follows. *)
Theorem C4_video_writes_after_cancellation :
  thread_ReceiveVideo (K := tutk_linux) 0 run_video_cancelled flags0
  = ([Printed "Video starting...\n";
      Printed "Start IPCAM video stream OK!\n";
      Called (c_open VIDEO_FIFO_PATH O_WRONLY) 5;
      Caught SIGINT;
      Printed msg_graceful;
      Called (c_avRecvFrameData2 0 VIDEO_BUF_SIZE) 100;
      Called (c_write 5 100) 100;
      Called (c_close VIDEO_FIFO_PATH 5) 0;
      Printed "[thread_ReceiveVideo] thread exit\n"],
     {| graceful_shutdown := 1; sigkill := 1 |}, Finished).
Proof. reflexivity. Qed.

(** The defect behind C4, for every frame: under a pending request a
    received frame is written before the flag is read. *)
Lemma video_writes_under_pending_request {K : sdk_consts}
  (avIndex fd v w : Z) (g : flags) :
  graceful_shutdown g = 1 ->
  v <> AV_ER_DATA_NOREADY ->
  v <> AV_ER_SESSION_CLOSE_BY_REMOTE ->
  v <> AV_ER_REMOTE_TIMEOUT_DISCONNECT ->
  v <> IOTC_ER_INVALID_SID ->
  run (video_step avIndex) [Step v; Step w; Step 0] g (Running (V_recv fd))
  = (Called (c_avRecvFrameData2 avIndex VIDEO_BUF_SIZE) v
       :: Called (c_write fd v) w
       :: (if w <? 0
           then [Printed "video_playback::write , ret=[%d]\n"]
           else []),
     g, Running (V_close fd)).
Proof.
  intros Hg H1 H2 H3 H4.
  destruct g as [gs sk]. simpl in Hg. subst gs. simpl.
  destruct (Z.eqb_spec v AV_ER_DATA_NOREADY); [contradiction|].
  destruct (Z.eqb_spec v AV_ER_SESSION_CLOSE_BY_REMOTE); [contradiction|].
  destruct (Z.eqb_spec v AV_ER_REMOTE_TIMEOUT_DISCONNECT); [contradiction|].
  destruct (Z.eqb_spec v IOTC_ER_INVALID_SID); [contradiction|].
  cbn [exec video_step]. destruct (w <? 0); reflexivity.
Qed.

(** The audio thread does what C4 says: from the receive on, with the
    request pending, it writes nothing. *)
Lemma audio_exits_before_write {K : sdk_consts} (avIndex fd : Z)
  (g : flags) (sched : list input) :
  graceful_shutdown g = 1 ->
  writes (trace_of (run (audio_step avIndex) sched g (Running (A_recv fd))))
  = 0%nat.
Proof.
  intros Hg.
  pose proof (audio_pending avIndex sched g (A_recv fd) Hg) as H.
  simpl in H. lia.
Qed.

Lemma audio_run_cancelled :
  thread_ReceiveAudio (K := tutk_linux) 0 run_audio_cancelled flags0
  = ([Printed "Audio Starting...\n";
      Printed "Start IPCAM audio stream OK!\n";
      Called (c_open AUDIO_FIFO_PATH O_WRONLY) 5;
      Caught SIGINT;
      Printed msg_graceful;
      Called (c_avCheckAudioBuf 0) 30;
      Called (c_avRecvAudioData 0 AUDIO_BUF_SIZE) 100;
      Called (c_close AUDIO_FIFO_PATH 5) 0;
      Printed "[thread_ReceiveAudio] thread exit\n"],
     {| graceful_shutdown := 1; sigkill := 1 |}, Finished).
Proof. reflexivity. Qed.

(** C6.  Whatever happened before, once an interrupt has been delivered
    each receive thread performs at most one more write, successful or not,
    in the rest of its run. *)
Theorem C6_one_write_after_cancellation :
  forall (K : sdk_consts) (avIndex : Z) (g : flags) (pre post : list input),
    let a := thread_ReceiveAudio avIndex (pre ++ [Signal SIGINT]) g in
    let v := thread_ReceiveVideo avIndex (pre ++ [Signal SIGINT]) g in
    (writes (trace_of (resume (audio_step avIndex) post a)) <= 1)%nat /\
    (successful_writes (trace_of (resume (audio_step avIndex) post a)) <= 1)%nat /\
    (writes (trace_of (resume (video_step avIndex) post v)) <= 1)%nat /\
    (successful_writes (trace_of (resume (video_step avIndex) post v)) <= 1)%nat.
Proof.
  intros K avIndex g pre post a v.
  assert (Ha : (writes (trace_of (resume (audio_step avIndex) post a)) <= 1)%nat).
  { pose proof (run_interrupt_pending (audio_step avIndex) pre g (Running A_open))
      as P.
    fold (thread_ReceiveAudio avIndex (pre ++ [Signal SIGINT]) g) in P.
    fold a in P. cbv zeta in P. unfold resume.
    destruct (status_of a) as [pc| |code].
    - pose proof (audio_pending avIndex post (flags_of a) pc P) as H.
      destruct pc; simpl in H; lia.
    - rewrite run_Finished. unfold trace_of, writes. simpl. lia.
    - rewrite run_Exited. unfold trace_of, writes. simpl. lia. }
  assert (Hv : (writes (trace_of (resume (video_step avIndex) post v)) <= 1)%nat).
  { pose proof (run_interrupt_pending (video_step avIndex) pre g (Running V_open))
      as P.
    fold (thread_ReceiveVideo avIndex (pre ++ [Signal SIGINT]) g) in P.
    fold v in P. cbv zeta in P. unfold resume.
    destruct (status_of v) as [pc| |code].
    - pose proof (video_pending avIndex post (flags_of v) pc P) as H.
      destruct pc; simpl in H; lia.
    - rewrite run_Finished. unfold trace_of, writes. simpl. lia.
    - rewrite run_Exited. unfold trace_of, writes. simpl. lia. }
  pose proof (successful_le_writes (trace_of (resume (audio_step avIndex) post a))).
  pose proof (successful_le_writes (trace_of (resume (video_step avIndex) post v))).
  repeat split; lia.
Qed.

(** The check does reject a write that follows a lost frame. *)
Example lost_frames_skipped_rejects :
  lost_frames_skipped (K := tutk_linux) false
    [Called (c_avRecvAudioData 0 AUDIO_BUF_SIZE) (-20014);
     Called (c_write 5 (-20014)) (-1)] = false.
Proof. reflexivity. Qed.

Lemma lost_frames_skipped_run {K : sdk_consts} (avIndex : Z)
  (sched : list input) :
  lost_frame_distinct K ->
  forall (g : flags) (st : status audio_pc) (pending : bool),
    at_poll pending st ->
    lost_frames_skipped pending (trace_of (run (audio_step avIndex) sched g st))
    = true.
Proof.
  intros (D1 & D2 & D3).
  induction sched as [|i sched IH]; intros g st pending Hst; [reflexivity|].
  cbn [run].
  destruct st as [pc| |code].
  - destruct i as [sg|v]; cbn [exec].
    + destruct (sigpipe_handler sg g) as [[evs g'] ex] eqn:Eh.
      assert (Hq : forall p tr, lost_frames_skipped p (evs ++ tr)
                                = lost_frames_skipped p tr).
      { destruct sg; simpl in Eh.
        - injection Eh as <- <- <-. reflexivity.
        - destruct (sigkill g =? 1); injection Eh as <- <- <-; reflexivity.
        - injection Eh as <- <- <-. reflexivity. }
      destruct ex as [code|].
      * rewrite run_Exited. unfold trace_of. simpl.
        rewrite app_nil_r. rewrite <- (app_nil_r evs). now rewrite Hq.
      * specialize (IH g' (Running pc) pending Hst).
        destruct (run (audio_step avIndex) sched g' (Running pc))
          as [[tr g''] st''].
        unfold trace_of in *. simpl in *. now rewrite Hq.
    + assert (Hp : pending = false \/ exists fd, pc = A_check fd).
      { destruct pending; [right|now left].
        destruct (Hst eq_refl) as [fd E]. injection E as ->. now exists fd. }
      assert (Hk : forall st' p,
                 at_poll p st' ->
                 lost_frames_skipped p
                   (trace_of (run (audio_step avIndex) sched g st')) = true)
        by (intros st' p; apply IH).
      clear IH Hst.
      destruct pc; cbn [audio_step];
        repeat match goal with
               | |- context [if ?b then _ else _] =>
                   let E := fresh "E" in destruct b eqn:E
               end;
        match goal with
        | |- context [run ?stp sched g ?st'] =>
            pose proof (Hk st' false) as Hf;
            pose proof (Hk st' true) as Ht;
            destruct (run stp sched g st') as [[tr g''] st''];
            unfold trace_of in *; cbn [fst snd] in *
        end;
        destruct Hp as [->|[fd' Epc]]; try discriminate Epc;
        simpl; bool_lia; subst;
        try (apply Hf; intros Ep; discriminate Ep);
        try (rewrite Z.eqb_refl; apply Ht; intros _; eexists; reflexivity);
        try (match goal with
             | |- context [?x =? ?y] =>
                 destruct (Z.eqb_spec x y) as [Exy|_];
                 [congruence|apply Hf; intros Ep; discriminate Ep]
             end).
  - cbn [exec]. rewrite run_Finished. reflexivity.
  - cbn [exec]. rewrite run_Exited. reflexivity.
Qed.

(** C8.  When [avRecvAudioData] returns [AV_ER_LOSED_THIS_FRAME] the audio
    thread records nothing but the call and is back at the head of the loop
    (line 219): no write, no exit from the loop.  In every run of the
    thread, the call that follows such a receive is the next poll of
    [avCheckAudioBuf]. *)
Theorem C8_lost_frame_skipped :
  forall (K : sdk_consts) (avIndex fd : Z) (g : flags) (sched : list input),
    lost_frame_distinct K ->
    audio_step avIndex (A_recv fd) g AV_ER_LOSED_THIS_FRAME
    = ([Called (c_avRecvAudioData avIndex AUDIO_BUF_SIZE) AV_ER_LOSED_THIS_FRAME],
       Running (A_check fd)) /\
    lost_frames_skipped false (trace_of (thread_ReceiveAudio avIndex sched g))
    = true.
Proof.
  intros K avIndex fd g sched D.
  split.
  - destruct D as (H1 & H2 & H3). simpl.
    destruct (Z.eqb_spec AV_ER_LOSED_THIS_FRAME AV_ER_SESSION_CLOSE_BY_REMOTE);
      [contradiction|].
    destruct (Z.eqb_spec AV_ER_LOSED_THIS_FRAME AV_ER_REMOTE_TIMEOUT_DISCONNECT);
      [contradiction|].
    destruct (Z.eqb_spec AV_ER_LOSED_THIS_FRAME IOTC_ER_INVALID_SID);
      [contradiction|].
    now rewrite Z.eqb_refl.
  - apply lost_frames_skipped_run; [exact D|].
    intros E. discriminate E.
Qed.

Lemma C8_lost_frame_skipped_witness :
  audio_step (K := tutk_linux) 0 (A_recv 5) flags0 (-20014)
  = ([Called (c_avRecvAudioData 0 AUDIO_BUF_SIZE) (-20014)],
     Running (A_check 5)).
Proof.
  apply (C8_lost_frame_skipped tutk_linux 0 5 flags0 []).
  unfold lost_frame_distinct. simpl. lia.
Defined.

(** ** Pipes that cannot be opened, writes that fail *)

Lemma connect_open_failure {K : sdk_consts} :
  holds [] (fun l r =>
     let c := pick call_of l in
     existsb is_failed_open c = true ->
     r = Exit EXIT_FAILURE /\
     is_failed_open (last c (c_fork, 0)) = true) thread_ConnectCCR.
Proof.
  mrun.
  all: unfold is_failed_open; simpl.
  all: use_tests; simpl.
  all: try (intros; discriminate).
  all: intros _; split; reflexivity.
Qed.

(** C10.  A receive thread whose [open] returns -1 calls
    [exit(EXIT_FAILURE)] at once, and so does the connection thread for
    either of its pipes: the failed [open] is the last call of the process.
    A failed [write] is only printed: whatever [write] returns, the thread
    goes on to the flag test that follows it (lines 261 and 337). *)
Theorem C10_unopenable_sink_is_fatal :
  forall (K : sdk_consts) (avIndex fd len v : Z) (g : flags)
         (s sched : list input),
    thread_ReceiveAudio avIndex (Step (-1) :: sched) g
    = ([Printed "Audio Starting...\n";
        Printed "Start IPCAM audio stream OK!\n";
        Called (c_open AUDIO_FIFO_PATH O_WRONLY) (-1);
        Perror "open"], g, Exited EXIT_FAILURE) /\
    thread_ReceiveVideo avIndex (Step (-1) :: sched) g
    = ([Printed "Video starting...\n";
        Printed "Start IPCAM video stream OK!\n";
        Called (c_open VIDEO_FIFO_PATH O_WRONLY) (-1);
        Perror "open"], g, Exited EXIT_FAILURE) /\
    (let o := thread_ConnectCCR g s in
     open_failed (events o) = true ->
     res o = Exit EXIT_FAILURE /\
     is_failed_open (last (called (events o)) (c_fork, 0)) = true) /\
    audio_step avIndex (A_write fd len) g v
    = (Called (c_write fd len) v
         :: (if v <? 0
             then [Printed "audio_playback::write , ret=[%d]\n"]
             else []),
       Running (A_flag2 fd)) /\
    video_step avIndex (V_write fd len) g v
    = (Called (c_write fd len) v
         :: (if v <? 0
             then [Printed "video_playback::write , ret=[%d]\n"]
             else []),
       Running (V_flag fd)).
Proof.
  intros K avIndex fd len v g s sched.
  split; [|split; [|split; [|split]]].
  - unfold thread_ReceiveAudio. cbn [run exec audio_step Z.eqb Pos.eqb].
    rewrite run_Exited. reflexivity.
  - unfold thread_ReceiveVideo. cbn [run exec video_step Z.eqb Pos.eqb].
    rewrite run_Exited. reflexivity.
  - exact (holds_run _ _ connect_open_failure g s).
  - simpl. now destruct (v <? 0).
  - simpl. now destruct (v <? 0).
Qed.

Lemma C10_unopenable_sink_is_fatal_witness :
  res (thread_ConnectCCR (K := tutk_linux) flags0 (steps [1234; 3; -1]))
  = Exit 1.
Proof.
  apply (C10_unopenable_sink_is_fatal tutk_linux 0 0 0 0 flags0
           (steps [1234; 3; -1]) []).
  reflexivity.
Defined.

(** ** The routines run to their end *)

Lemma bind_assoc {A B C : Type} (m : M A) (f : A -> M B) (k : B -> M C)
  (g : flags) (s : list input) :
  bind (bind m f) k g s = bind m (fun x => bind (f x) k) g s.
Proof.
  unfold bind.
  destruct (res (m g s)); simpl; try reflexivity.
  destruct (res (f a _ _)); simpl; try reflexivity.
  now rewrite app_assoc.
Qed.

Lemma returns_ret {A : Type} (n : nat) (a : A) : returns_within n (retM a).
Proof.
  intros g vs _. split; [discriminate|]. exists vs. split; [reflexivity|lia].
Qed.

Lemma returns_exit {A : Type} (n : nat) (code : Z) :
  returns_within n (exit (A := A) code).
Proof.
  intros g vs _. split; [discriminate|]. exists vs. split; [reflexivity|lia].
Qed.

Lemma returns_replaced {A : Type} (n : nat) :
  returns_within n (replaced (A := A)).
Proof.
  intros g vs _. split; [discriminate|]. exists vs. split; [reflexivity|lia].
Qed.

Lemma returns_bind_sys {B : Type} (n : nat) (c : call) (k : Z -> M B) :
  (forall v, returns_within n (k v)) ->
  returns_within (S n) (bind (sys c) k).
Proof.
  intros H g vs Hlen.
  destruct vs as [|v vs]; [simpl in Hlen; lia|].
  simpl in Hlen. unfold bind. simpl.
  destruct (H v g vs ltac:(lia)) as (Hr & vs' & Hrest & Hl).
  fold (steps vs).
  destruct (res (k v g (steps vs))); simpl;
    (split; [congruence|exists vs'; split; [exact Hrest|simpl; lia]]).
Qed.

Lemma returns_bind_emit {B : Type} (n : nat) (e : event) (k : unit -> M B) :
  returns_within n (k tt) -> returns_within n (bind (emit e) k).
Proof.
  intros H g vs Hlen. unfold bind. simpl.
  destruct (H g vs Hlen) as (Hr & vs' & Hrest & Hl).
  destruct (res (k tt g (steps vs))); simpl;
    (split; [congruence|exists vs'; split; [exact Hrest|lia]]).
Qed.

Lemma returns_bind_ret {A B : Type} (n : nat) (a : A) (k : A -> M B) :
  returns_within n (k a) -> returns_within n (bind (retM a) k).
Proof.
  intros H g vs Hlen. unfold bind. simpl.
  destruct (H g vs Hlen) as (Hr & vs' & Hrest & Hl).
  destruct (res (k a g (steps vs))); simpl;
    (split; [congruence|exists vs'; split; [exact Hrest|lia]]).
Qed.

Lemma returns_bind_stop {A B : Type} (n : nat) (m : M A) (k : A -> M B) :
  (forall g s, m g s = mkOut [] g s (res (m g s))) ->
  (forall g s a, res (m g s) <> Done a) ->
  (forall g s, res (m g s) <> Blocked) ->
  returns_within n (bind m k).
Proof.
  intros Hsame Hnd Hnb g vs _. unfold bind.
  pose proof (Hnd g (steps vs)) as H1. pose proof (Hnb g (steps vs)) as H2.
  rewrite (Hsame g (steps vs)). simpl.
  destruct (res (m g (steps vs))); simpl;
    try (now elim (H1 a)); try (now elim H2);
    (split; [discriminate|exists vs; split; [reflexivity|lia]]).
Qed.

Lemma returns_assoc {A B C : Type} (n : nat)
  (m : M A) (f : A -> M B) (k : B -> M C) :
  returns_within n (bind m (fun x => bind (f x) k)) ->
  returns_within n (bind (bind m f) k).
Proof. intros H g vs Hlen. rewrite bind_assoc. exact (H g vs Hlen). Qed.

Lemma returns_bind_print_devices {B : Type} (n d : nat) (k : unit -> M B) :
  returns_within n (k tt) -> returns_within n (bind (print_devices d) k).
Proof.
  intros H. induction d as [|d IH]; simpl.
  - now apply returns_bind_ret.
  - apply returns_assoc. now apply returns_bind_emit.
Qed.

Ltac rstep :=
  lazymatch goal with
  | |- returns_within _ (bind (bind _ _) _) => apply returns_assoc
  | |- returns_within _ (bind (sys _) _) =>
      apply returns_bind_sys; let v := fresh "v" in intros v
  | |- returns_within _ (bind (emit _) _) => apply returns_bind_emit
  | |- returns_within _ (bind (printf _) _) => apply returns_bind_emit
  | |- returns_within _ (bind (perror _) _) => apply returns_bind_emit
  | |- returns_within _ (bind (PrintErrHandling _) _) => apply returns_bind_emit
  | |- returns_within _ (bind (print_devices _) _) =>
      apply returns_bind_print_devices
  | |- returns_within _ (bind (retM _) _) => apply returns_bind_ret
  | |- returns_within _ (bind (exit _) _) =>
      apply returns_bind_stop; [reflexivity|discriminate|discriminate]
  | |- returns_within _ (bind replaced _) =>
      apply returns_bind_stop; [reflexivity|discriminate|discriminate]
  | |- returns_within _ (bind (if ?b then _ else _) _) => destruct b
  | |- returns_within _ (if ?b then _ else _) => destruct b
  | |- returns_within _ (retM _) => apply returns_ret
  | |- returns_within _ (exit _) => apply returns_exit
  | |- returns_within _ replaced => apply returns_replaced
  end.

(** [thread_ConnectCCR] makes at most 22 calls. *)
Lemma connect_returns {K : sdk_consts} : returns_within 22 thread_ConnectCCR.
Proof.
  unfold thread_ConnectCCR, start_ipcam_stream, run_threads, execlp_ffmpeg.
  repeat rstep.
Qed.

(** [main] makes at most 32 calls. *)
Lemma main_returns {K : sdk_consts} (argc : Z) :
  returns_within 32 (main argc).
Proof.
  unfold main, lan_search, thread_ConnectCCR, start_ipcam_stream, run_threads,
    execlp_ffmpeg.
  repeat rstep.
Qed.

(** ** The buffer-clean thread *)

(** [thread_bufferClean] never returns: its loop has no exit. *)
Lemma bufferClean_never_returns (sched : list input) :
  forall (g : flags) (st : status clean_pc),
    st <> Finished ->
    status_of (run clean_step sched g st) <> Finished.
Proof.
  induction sched as [|i sched IH]; intros g st Hst; [exact Hst|].
  cbn [run].
  destruct st as [pc| |code]; [|now elim Hst|].
  - destruct i as [sg|v]; cbn [exec].
    + destruct (sigpipe_handler sg g) as [[evs g'] [code|]].
      * rewrite run_Exited. discriminate.
      * specialize (IH g' (Running pc) ltac:(discriminate)).
        destruct (run clean_step sched g' (Running pc)) as [[tr g''] st''].
        exact IH.
    + destruct pc; cbn [clean_step];
        match goal with
        | |- context [run clean_step sched g (Running ?pc')] =>
            specialize (IH g (Running pc') ltac:(discriminate));
            destruct (run clean_step sched g (Running pc')) as [[tr g''] st'']
        end; exact IH.
  - cbn [exec]. rewrite run_Exited. discriminate.
Qed.

(** * Further properties of the code *)

(** ** The handler on arbitrary flags *)

(** Only interrupts count: whatever the flags, delivering a sequence of
    signals leaves the same flags and ends the process or not exactly as
    delivering its interrupts alone.  A broken pipe is printed and nothing
    else. *)
Theorem only_interrupts_count :
  forall (sigs : list signal) (g : flags),
    snd (fst (deliver sigs g)) = snd (fst (deliver (filter is_sigint sigs) g)) /\
    snd (deliver sigs g) = snd (deliver (filter is_sigint sigs) g).
Proof.
  induction sigs as [|sg sigs IH]; intros g; [split; reflexivity|].
  destruct sg; simpl.
  - specialize (IH g). destruct (deliver sigs g) as [[tr g'] ex].
    exact IH.
  - destruct (sigkill g =? 1); simpl; [split; reflexivity|].
    specialize (IH {| graceful_shutdown := 1; sigkill := 1 |}).
    destruct (deliver sigs _) as [[tr g'] ex].
    destruct (deliver (filter is_sigint sigs) _) as [[tr2 g2] ex2].
    exact IH.
  - specialize (IH g). destruct (deliver sigs g) as [[tr g'] ex].
    exact IH.
Qed.

Lemma called_handler (sg : signal) (g : flags) (tr : list event) :
  called (Caught sg :: fst (fst (sigpipe_handler sg g)) ++ tr) = called tr.
Proof.
  destruct sg; simpl; try reflexivity.
  now destruct (sigkill g =? 1).
Qed.

Lemma monitor_app {S : Type} (delta : S -> call * Z -> option S)
  (l1 l2 : list (call * Z)) :
  forall s,
    monitor delta s (l1 ++ l2)
    = match monitor delta s l1 with
      | Some s' => monitor delta s' l2
      | None => None
      end.
Proof.
  induction l1 as [|cv l1 IH]; intros s; simpl; [reflexivity|].
  destruct (delta s cv); [apply IH|reflexivity].
Qed.

Section Monitor.
Context {PC S : Type}.
Variable step : PC -> flags -> Z -> list event * status PC.
Variable delta : S -> call * Z -> option S.
Variable R : S -> flags -> status PC -> Prop.

Hypothesis R_signal :
  forall (s : S) (g : flags) (pc : PC) (sg : signal),
    R s g (Running pc) ->
    match snd (sigpipe_handler sg g) with
    | Some code => R s (snd (fst (sigpipe_handler sg g))) (Exited code)
    | None => R s (snd (fst (sigpipe_handler sg g))) (Running pc)
    end.

Hypothesis R_step :
  forall (s : S) (g : flags) (pc : PC) (v : Z),
    R s g (Running pc) ->
    exists s',
      monitor delta s (called (fst (step pc g v))) = Some s' /\
      R s' g (snd (step pc g v)).

Lemma monitor_run (sched : list input) :
  forall (g : flags) (st : status PC) (s : S),
    R s g st ->
    exists s',
      monitor delta s (called (trace_of (run step sched g st))) = Some s' /\
      R s' (flags_of (run step sched g st)) (status_of (run step sched g st)).
Proof.
  induction sched as [|i sched IH]; intros g st s HR.
  - exists s. split; [reflexivity|exact HR].
  - cbn [run].
    destruct st as [pc| |code]; cbn [exec].
    + destruct i as [sg|v].
      * pose proof (R_signal s g pc sg HR) as Hs.
        pose proof (called_handler sg g) as Hq.
        destruct (sigpipe_handler sg g) as [[evs g'] [code|]];
          cbn [fst snd] in Hs, Hq.
        -- rewrite run_Exited. unfold trace_of, flags_of, status_of.
           cbn [fst snd]. rewrite app_nil_r.
           exists s. split; [|exact Hs].
           specialize (Hq []). rewrite app_nil_r in Hq. now rewrite Hq.
        -- destruct (IH g' (Running pc) s Hs) as (s' & Hm & HR').
           destruct (run step sched g' (Running pc)) as [[tr g''] st''].
           unfold trace_of, flags_of, status_of in *. cbn [fst snd] in *.
           exists s'. split; [|exact HR'].
           change ((Caught sg :: evs) ++ tr) with (Caught sg :: evs ++ tr).
           now rewrite Hq.
      * destruct (R_step s g pc v HR) as (s1 & Hm1 & HR1).
        destruct (step pc g v) as [evs st']. cbn [fst snd] in Hm1, HR1.
        destruct (IH g st' s1 HR1) as (s' & Hm & HR').
        destruct (run step sched g st') as [[tr g''] st''].
        unfold trace_of, flags_of, status_of in *. cbn [fst snd] in *.
        exists s'. split; [|exact HR'].
        now rewrite called_app, monitor_app, Hm1.
    + rewrite run_Finished. exists s. split; [reflexivity|exact HR].
    + rewrite run_Exited. exists s. split; [reflexivity|exact HR].
Qed.
End Monitor.

(** The same for the schedules whose values are [int]s; the step needs to
    keep the relation for such values only. *)
Section MonitorInt.
Context {PC S : Type}.
Variable step : PC -> flags -> Z -> list event * status PC.
Variable delta : S -> call * Z -> option S.
Variable R : S -> flags -> status PC -> Prop.

Hypothesis R_signal :
  forall (s : S) (g : flags) (pc : PC) (sg : signal),
    R s g (Running pc) ->
    match snd (sigpipe_handler sg g) with
    | Some code => R s (snd (fst (sigpipe_handler sg g))) (Exited code)
    | None => R s (snd (fst (sigpipe_handler sg g))) (Running pc)
    end.

Hypothesis R_step :
  forall (s : S) (g : flags) (pc : PC) (v : Z),
    is_int v = true ->
    R s g (Running pc) ->
    exists s',
      monitor delta s (called (fst (step pc g v))) = Some s' /\
      R s' g (snd (step pc g v)).

Lemma monitor_run_int (sched : list input) :
  forall (g : flags) (st : status PC) (s : S),
    int_schedule sched = true ->
    R s g st ->
    exists s',
      monitor delta s (called (trace_of (run step sched g st))) = Some s' /\
      R s' (flags_of (run step sched g st)) (status_of (run step sched g st)).
Proof.
  induction sched as [|i sched IH]; intros g st s Hi HR.
  - exists s. split; [reflexivity|exact HR].
  - cbn [int_schedule forallb] in Hi.
    apply andb_true_iff in Hi. destruct Hi as [Hv Hi].
    cbn [run].
    destruct st as [pc| |code]; cbn [exec].
    + destruct i as [sg|v].
      * pose proof (R_signal s g pc sg HR) as Hs.
        pose proof (called_handler sg g) as Hq.
        destruct (sigpipe_handler sg g) as [[evs g'] [code|]];
          cbn [fst snd] in Hs, Hq.
        -- rewrite run_Exited. unfold trace_of, flags_of, status_of.
           cbn [fst snd]. rewrite app_nil_r.
           exists s. split; [|exact Hs].
           specialize (Hq []). rewrite app_nil_r in Hq. now rewrite Hq.
        -- destruct (IH g' (Running pc) s Hi Hs) as (s' & Hm & HR').
           destruct (run step sched g' (Running pc)) as [[tr g''] st''].
           unfold trace_of, flags_of, status_of in *. cbn [fst snd] in *.
           exists s'. split; [|exact HR'].
           change ((Caught sg :: evs) ++ tr) with (Caught sg :: evs ++ tr).
           now rewrite Hq.
      * cbn [int_input] in Hv.
        destruct (R_step s g pc v Hv HR) as (s1 & Hm1 & HR1).
        destruct (step pc g v) as [evs st']. cbn [fst snd] in Hm1, HR1.
        destruct (IH g st' s1 Hi HR1) as (s' & Hm & HR').
        destruct (run step sched g st') as [[tr g''] st''].
        unfold trace_of, flags_of, status_of in *. cbn [fst snd] in *.
        exists s'. split; [|exact HR'].
        now rewrite called_app, monitor_app, Hm1.
    + rewrite run_Finished. exists s. split; [reflexivity|exact HR].
    + rewrite run_Exited. exists s. split; [reflexivity|exact HR].
Qed.
End MonitorInt.

(** ** The receive threads: what every run shows *)

Ltac split_ifs :=
  repeat match goal with
         | |- context [if ?b then _ else _] =>
             let E := fresh "E" in destruct b eqn:E
         end.

(** The audio receive is gated: in every run of [thread_ReceiveAudio],
    [avRecvAudioData] is called only right after an [avCheckAudioBuf] that
    returned 25 or more. *)
Theorem audio_receive_gated :
  forall (K : sdk_consts) (avIndex : Z) (sched : list input) (g : flags),
    monitor gate_delta false
      (called (trace_of (thread_ReceiveAudio avIndex sched g))) <> None.
Proof.
  intros K avIndex sched g.
  destruct (monitor_run (audio_step avIndex) gate_delta gate_at) with
    (sched := sched) (g := g) (st := Running A_open) (s := false)
    as (s' & Hm & _).
  - intros s g0 pc sg H.
    destruct (snd (sigpipe_handler sg g0)); [exact I|exact H].
  - intros s g0 pc v H.
    destruct pc; cbn [audio_step]; split_ifs; cbn; unfold gate_delta; cbn;
      try (simpl in H; subst s);
      try (eexists; split; [reflexivity|]; cbn; auto);
      bool_lia.
  - exact I.
  - unfold thread_ReceiveAudio. rewrite Hm. discriminate.
Qed.

Example gate_rejects :
  monitor gate_delta false
    [(c_avCheckAudioBuf 0, 24); (c_avRecvAudioData 0 AUDIO_BUF_SIZE, 100)]
  = None.
Proof. reflexivity. Qed.

Lemma relay_signal {PC : Type}
  (R : relay_state -> flags -> status PC -> Prop) :
  (forall s g g' st, R s g st -> R s g' st) ->
  (forall s g code, R s g (Exited code)) ->
  forall (s : relay_state) (g : flags) (pc : PC) (sg : signal),
    R s g (Running pc) ->
    match snd (sigpipe_handler sg g) with
    | Some code => R s (snd (fst (sigpipe_handler sg g))) (Exited code)
    | None => R s (snd (fst (sigpipe_handler sg g))) (Running pc)
    end.
Proof.
  intros Hg He s g pc sg H.
  destruct (snd (sigpipe_handler sg g)); [apply He|now apply (Hg s g)].
Qed.

Lemma to_size_t_int (ret : Z) :
  is_int ret = true -> to_size_t ret = bytes_requested ret.
Proof.
  unfold is_int, to_size_t, bytes_requested, size_t_bits. intros H.
  apply andb_true_iff in H. destruct H as [Hl Hu].
  apply Z.leb_le in Hl. apply Z.ltb_lt in Hu.
  change (2 ^ 31) with 2147483648 in *.
  change (2 ^ 64) with 18446744073709551616.
  destruct (0 <=? ret) eqn:E.
  - apply Z.leb_le in E. apply Z.mod_small. lia.
  - apply Z.leb_gt in E. symmetry.
    apply (Z.mod_unique_pos _ _ (-1)). all: lia.
Qed.

(** What a receive thread asks [write] for.  In every run of either receive
    thread on [int] values, each [write] is on the descriptor the thread's
    [open] returned, and the [close] is on that descriptor too; the count of
    each [write] is the value returned by the receive right before it,
    taken as a [size_t]: the number of bytes received when that value is
    not negative, and [2 ^ 64] plus the value when it is negative, which a
    result that the loop does not test for can be. *)
Theorem relay_write_count :
  forall (K : sdk_consts) (avIndex : Z) (sched : list input) (g : flags),
    int_schedule sched = true ->
    monitor count_delta (mkRelay None None)
      (called (trace_of (thread_ReceiveAudio avIndex sched g))) <> None /\
    monitor count_delta (mkRelay None None)
      (called (trace_of (thread_ReceiveVideo avIndex sched g))) <> None.
Proof.
  intros K avIndex sched g Hi. split.
  - destruct (monitor_run_int (audio_step avIndex) count_delta audio_count_at)
      with (sched := sched) (g := g) (st := Running A_open)
           (s := mkRelay None None) as (s' & Hm & _).
    + intros s g0 pc sg [H Hr].
      destruct (snd (sigpipe_handler sg g0)); split; solve [exact I|assumption].
    + intros [o r] g0 pc v Hv [H Hr].
      destruct pc; cbn [audio_step]; split_ifs; cbn in H, Hr |- *;
        unfold count_delta, audio_count_at, received_int; cbn;
        repeat match goal with
               | H : _ /\ _ |- _ => destruct H
               end; subst;
        rewrite ?to_size_t_int by assumption; rewrite ?Z.eqb_refl; cbn;
        eexists; (split; [reflexivity|]); cbn; auto.
    + exact Hi.
    + split; exact I.
    + unfold thread_ReceiveAudio. rewrite Hm. discriminate.
  - destruct (monitor_run_int (video_step avIndex) count_delta video_count_at)
      with (sched := sched) (g := g) (st := Running V_open)
           (s := mkRelay None None) as (s' & Hm & _).
    + intros s g0 pc sg [H Hr].
      destruct (snd (sigpipe_handler sg g0)); split; solve [exact I|assumption].
    + intros [o r] g0 pc v Hv [H Hr].
      destruct pc; cbn [video_step]; split_ifs; cbn in H, Hr |- *;
        unfold count_delta, video_count_at, received_int; cbn;
        repeat match goal with
               | H : _ /\ _ |- _ => destruct H
               end; subst;
        rewrite ?to_size_t_int by assumption; rewrite ?Z.eqb_refl; cbn;
        eexists; (split; [reflexivity|]); cbn; auto.
    + exact Hi.
    + split; exact I.
    + unfold thread_ReceiveVideo. rewrite Hm. discriminate.
Qed.

Lemma relay_write_count_witness :
  int_schedule run_video_lost_frame = true /\
  monitor count_delta (mkRelay None None)
    (called (trace_of
       (thread_ReceiveVideo (K := tutk_linux) 0 run_video_lost_frame flags0)))
  <> None.
Proof.
  split; [reflexivity|].
  apply (relay_write_count tutk_linux 0 run_video_lost_frame flags0).
  reflexivity.
Defined.

(** A lost frame in the video loop: the receive returns
    [AV_ER_LOSED_THIS_FRAME], no branch of the loop takes it, and [write]
    is asked for [2 ^ 64 - 20014] bytes. *)
Example video_lost_frame_write :
  pick (fun cv => match fst cv with
                  | c_write fd len => Some (fd, to_size_t len)
                  | _ => None
                  end)
    (called (trace_of
       (thread_ReceiveVideo (K := tutk_linux) 0 run_video_lost_frame flags0)))
  = [(5, 18446744073709531602)].
Proof. reflexivity. Qed.

(** The monitor tells a count apart from the one the receive determines. *)
Example count_rejects :
  monitor count_delta (mkRelay None None)
    [(c_open VIDEO_FIFO_PATH O_WRONLY, 5);
     (c_avRecvFrameData2 0 VIDEO_BUF_SIZE, 100);
     (c_write 5 99, 99)]
  = None.
Proof. reflexivity. Qed.

(** A receive thread that has returned has closed its pipe, exactly once
    and as its last call; a thread that is still running, or that ended the
    process, has closed nothing. *)
Theorem relay_closes_once :
  forall (K : sdk_consts) (avIndex : Z) (sched : list input) (g : flags),
    monitor close_delta false
      (called (trace_of (thread_ReceiveAudio avIndex sched g)))
    = Some (match status_of (thread_ReceiveAudio avIndex sched g) with
            | Finished => true
            | _ => false
            end) /\
    monitor close_delta false
      (called (trace_of (thread_ReceiveVideo avIndex sched g)))
    = Some (match status_of (thread_ReceiveVideo avIndex sched g) with
            | Finished => true
            | _ => false
            end).
Proof.
  intros K avIndex sched g. split.
  - destruct (monitor_run (audio_step avIndex) close_delta closed_at)
      with (sched := sched) (g := g) (st := Running A_open) (s := false)
      as (s' & Hm & HR).
    + intros s g0 pc sg H.
      destruct (snd (sigpipe_handler sg g0)); exact H.
    + intros s g0 pc v H. cbn in H. subst s.
      destruct pc; cbn [audio_step]; split_ifs; cbn;
        eexists; (split; [reflexivity|]); reflexivity.
    + reflexivity.
    + unfold thread_ReceiveAudio. rewrite Hm.
      destruct (status_of _); cbn in HR; now subst s'.
  - destruct (monitor_run (video_step avIndex) close_delta closed_at)
      with (sched := sched) (g := g) (st := Running V_open) (s := false)
      as (s' & Hm & HR).
    + intros s g0 pc sg H.
      destruct (snd (sigpipe_handler sg g0)); exact H.
    + intros s g0 pc v H. cbn in H. subst s.
      destruct pc; cbn [video_step]; split_ifs; cbn;
        eexists; (split; [reflexivity|]); reflexivity.
    + reflexivity.
    + unfold thread_ReceiveVideo. rewrite Hm.
      destruct (status_of _); cbn in HR; now subst s'.
Qed.

Lemma cause_signal {PC : Type}
  (R : cause_state -> flags -> status PC -> Prop) :
  (forall s g g' st,
      (graceful_shutdown g = 1 -> graceful_shutdown g' = 1) ->
      R s g st -> R s g' st) ->
  (forall s g code, R s g (Exited code)) ->
  forall (s : cause_state) (g : flags) (pc : PC) (sg : signal),
    R s g (Running pc) ->
    match snd (sigpipe_handler sg g) with
    | Some code => R s (snd (fst (sigpipe_handler sg g))) (Exited code)
    | None => R s (snd (fst (sigpipe_handler sg g))) (Running pc)
    end.
Proof.
  intros Hg He s g pc sg H.
  destruct (snd (sigpipe_handler sg g)); [apply He|].
  apply (Hg s g); [apply handler_keeps_request|exact H].
Qed.

(** A receive thread leaves its loop only for a reason.  If the thread has
    returned and no graceful shutdown is pending at that point, the call
    right before its [close] was a poll that returned a negative value or a
    receive that returned [AV_ER_SESSION_CLOSE_BY_REMOTE],
    [AV_ER_REMOTE_TIMEOUT_DISCONNECT] or [IOTC_ER_INVALID_SID]. *)
Theorem relay_returns_for_a_reason :
  forall (K : sdk_consts) (avIndex : Z) (sched : list input) (g : flags),
    (status_of (thread_ReceiveAudio avIndex sched g) = Finished ->
     graceful_shutdown (flags_of (thread_ReceiveAudio avIndex sched g)) <> 1 ->
     exists s,
       monitor cause_delta (mkCause false None)
         (called (trace_of (thread_ReceiveAudio avIndex sched g))) = Some s /\
       verdict s = Some true) /\
    (status_of (thread_ReceiveVideo avIndex sched g) = Finished ->
     graceful_shutdown (flags_of (thread_ReceiveVideo avIndex sched g)) <> 1 ->
     exists s,
       monitor cause_delta (mkCause false None)
         (called (trace_of (thread_ReceiveVideo avIndex sched g))) = Some s /\
       verdict s = Some true).
Proof.
  intros K avIndex sched g. split.
  - destruct (monitor_run (audio_step avIndex) cause_delta audio_cause_at)
      with (sched := sched) (g := g) (st := Running A_open)
           (s := mkCause false None) as (s' & Hm & HR).
    + apply cause_signal; [|intros; exact I].
      intros s g0 g' st Hmono H.
      destruct st as [pc| |code]; [destruct pc| |]; cbn in H |- *;
        try exact I; destruct H as [H|H]; auto.
    + intros [t w] g0 pc v H.
      destruct pc; cbn [audio_step]; split_ifs; cbn in H |- *;
        unfold cause_delta, is_terminal; cbn;
        (eexists; split; [reflexivity|]); cbn; try exact I;
        bool_lia; use_tests; cbn; rewrite ?orb_true_r; auto;
        destruct H as [H|H]; [now left|right; now rewrite H].
    + exact I.
    + unfold thread_ReceiveAudio in *. intros Hf Hg.
      rewrite Hf in HR. cbn in HR. destruct HR as [HR|HR]; [contradiction|].
      exists s'. split; assumption.
  - destruct (monitor_run (video_step avIndex) cause_delta video_cause_at)
      with (sched := sched) (g := g) (st := Running V_open)
           (s := mkCause false None) as (s' & Hm & HR).
    + apply cause_signal; [|intros; exact I].
      intros s g0 g' st Hmono H.
      destruct st as [pc| |code]; [destruct pc| |]; cbn in H |- *;
        try exact I; destruct H as [H|H]; auto.
    + intros [t w] g0 pc v H.
      destruct pc; cbn [video_step]; split_ifs; cbn in H |- *;
        unfold cause_delta, is_terminal; cbn;
        (eexists; split; [reflexivity|]); cbn; try exact I;
        bool_lia; use_tests; cbn; rewrite ?orb_true_r; auto;
        destruct H as [H|H]; [now left|right; now rewrite H].
    + exact I.
    + unfold thread_ReceiveVideo in *. intros Hf Hg.
      rewrite Hf in HR. cbn in HR. destruct HR as [HR|HR]; [contradiction|].
      exists s'. split; assumption.
Qed.

Lemma relay_returns_for_a_reason_witness :
  exists s,
    monitor (cause_delta (K := tutk_linux)) (mkCause false None)
      (called (trace_of (thread_ReceiveAudio (K := tutk_linux) 0
                           [Step 5; Step (-1); Step 0] flags0))) = Some s /\
    verdict s = Some true.
Proof.
  apply (relay_returns_for_a_reason tutk_linux 0 [Step 5; Step (-1); Step 0]
           flags0); [reflexivity|discriminate].
Defined.

(** While no data is ready the loops do not look at the flag.  As long as
    [avCheckAudioBuf] returns values from 0 to 24 the audio thread only
    polls and sleeps, and as long as [avRecvFrameData2] returns
    [AV_ER_DATA_NOREADY] so does the video thread: whatever the flags, also
    with a graceful shutdown pending, the thread is back at the head of its
    loop and has neither written nor closed anything. *)
Theorem idle_polling_ignores_request :
  forall (K : sdk_consts) (avIndex fd : Z) (g : flags) (vs : list Z) (n : nat),
    Forall (fun v => 0 <= v < 25) vs ->
    run (audio_step avIndex) (audio_idle vs) g (Running (A_check fd))
    = (audio_idle_trace avIndex vs, g, Running (A_check fd)) /\
    run (video_step avIndex) (video_idle n) g (Running (V_recv fd))
    = (video_idle_trace avIndex n, g, Running (V_recv fd)).
Proof.
  intros K avIndex fd g vs n Hvs. split.
  - induction Hvs as [|v vs Hv _ IH]; [reflexivity|].
    change (audio_idle (v :: vs)) with (Step v :: Step 0 :: audio_idle vs).
    change (audio_idle_trace avIndex (v :: vs))
      with (Called (c_avCheckAudioBuf avIndex) v
              :: Called (c_usleep gSleepUs) 0 :: audio_idle_trace avIndex vs).
    cbn [run exec audio_step].
    destruct (Z.ltb_spec v 0) as [Hn|_]; [lia|].
    destruct (Z.ltb_spec v 25) as [_|Hn]; [|lia].
    cbn [exec audio_step]. rewrite IH. reflexivity.
  - induction n as [|n IH]; [reflexivity|].
    cbn [video_idle run exec video_step].
    rewrite Z.eqb_refl. cbn [exec video_step]. rewrite IH. reflexivity.
Qed.

Lemma idle_polling_ignores_request_witness :
  run (audio_step (K := tutk_linux) 0) (audio_idle [0; 24; 7])
      {| graceful_shutdown := 1; sigkill := 1 |} (Running (A_check 5))
  = (audio_idle_trace 0 [0; 24; 7],
     {| graceful_shutdown := 1; sigkill := 1 |}, Running (A_check 5)).
Proof.
  apply (idle_polling_ignores_request tutk_linux 0 5
           {| graceful_shutdown := 1; sigkill := 1 |} [0; 24; 7] 0%nat).
  repeat constructor; lia.
Defined.

Lemma plain_signal {PC S : Type} (R : S -> flags -> status PC -> Prop) :
  (forall s g g' st, R s g st -> R s g' st) ->
  (forall s g code, R s g (Exited code)) ->
  forall (s : S) (g : flags) (pc : PC) (sg : signal),
    R s g (Running pc) ->
    match snd (sigpipe_handler sg g) with
    | Some code => R s (snd (fst (sigpipe_handler sg g))) (Exited code)
    | None => R s (snd (fst (sigpipe_handler sg g))) (Running pc)
    end.
Proof.
  intros Hg He s g pc sg H.
  destruct (snd (sigpipe_handler sg g)); [apply He|now apply (Hg s g)].
Qed.

(** A terminal condition ends the loop at once.  In every run of the audio
    thread, a poll that returned a negative value or a receive that
    returned [AV_ER_SESSION_CLOSE_BY_REMOTE],
    [AV_ER_REMOTE_TIMEOUT_DISCONNECT] or [IOTC_ER_INVALID_SID] is followed by
    no call but the [close] of the pipe: nothing is written or received
    after it.  The same holds of the video thread and its receive, the three
    codes being different from [AV_ER_DATA_NOREADY]. *)
Theorem terminal_condition_ends_loop :
  forall (K : sdk_consts) (avIndex : Z) (sched : list input) (g : flags),
    noready_distinct K ->
    monitor final_delta false
      (called (trace_of (thread_ReceiveAudio avIndex sched g))) <> None /\
    monitor final_delta false
      (called (trace_of (thread_ReceiveVideo avIndex sched g))) <> None.
Proof.
  intros K avIndex sched g (D1 & D2 & D3). split.
  - destruct (monitor_run (audio_step avIndex) final_delta
                (final_at audio_closing))
      with (sched := sched) (g := g) (st := Running A_open) (s := false)
      as (s' & Hm & _).
    + apply plain_signal; [intros s g0 g' st H; exact H|intros; exact I].
    + intros s g0 pc v H. cbn in H.
      destruct pc; cbn [audio_step]; split_ifs;
        try (destruct s; [specialize (H eq_refl); discriminate H|]);
        unfold final_delta, is_terminal; cbn;
        try (destruct s);
        (eexists; split; [reflexivity|]); cbn; try exact I; try reflexivity;
        use_tests; cbn; rewrite ?orb_true_r; intros Ht;
        first [reflexivity|discriminate Ht].
    + intros E. discriminate E.
    + unfold thread_ReceiveAudio. rewrite Hm. discriminate.
  - destruct (monitor_run (video_step avIndex) final_delta
                (final_at video_closing))
      with (sched := sched) (g := g) (st := Running V_open) (s := false)
      as (s' & Hm & _).
    + apply plain_signal; [intros s g0 g' st H; exact H|intros; exact I].
    + intros s g0 pc v H. cbn in H.
      destruct pc; cbn [video_step]; split_ifs;
        try (destruct s; [specialize (H eq_refl); discriminate H|]);
        unfold final_delta, is_terminal; cbn;
        try (destruct s);
        (eexists; split; [reflexivity|]); cbn; try exact I; try reflexivity;
        use_tests; cbn; rewrite ?orb_true_r; intros Ht;
        first [reflexivity|discriminate Ht|idtac];
        bool_lia; subst;
        repeat match goal with
               | H : context [?x =? ?y] |- _ =>
                   destruct (Z.eqb_spec x y); [congruence|]
               end; cbn in Ht; discriminate Ht.
    + intros E. discriminate E.
    + unfold thread_ReceiveVideo. rewrite Hm. discriminate.
Qed.

Lemma terminal_condition_ends_loop_witness :
  monitor (final_delta (K := tutk_linux)) false
    (called (trace_of (thread_ReceiveVideo (K := tutk_linux) 0
                         [Step 5; Step (-20015); Step 0] flags0))) <> None.
Proof.
  apply (terminal_condition_ends_loop tutk_linux 0
           [Step 5; Step (-20015); Step 0] flags0).
  unfold noready_distinct. simpl. lia.
Defined.

Example final_rejects :
  monitor (final_delta (K := tutk_linux)) false
    [(c_avRecvFrameData2 0 VIDEO_BUF_SIZE, -20015); (c_write 5 (-20015), -1)]
  = None.
Proof. reflexivity. Qed.

(** The poll interval.  In every run of either receive thread, [usleep] is
    called with [gSleepUs] (10000 microseconds) and only right after an
    [avCheckAudioBuf] that returned 0 to 24, or an [avRecvFrameData2] that
    returned [AV_ER_DATA_NOREADY]: the threads sleep only when no data is
    ready, and then for the fixed interval. *)
Theorem sleeps_only_when_idle :
  forall (K : sdk_consts) (avIndex : Z) (sched : list input) (g : flags),
    monitor sleep_delta false
      (called (trace_of (thread_ReceiveAudio avIndex sched g))) <> None /\
    monitor sleep_delta false
      (called (trace_of (thread_ReceiveVideo avIndex sched g))) <> None.
Proof.
  intros K avIndex sched g. split.
  - destruct (monitor_run (audio_step avIndex) sleep_delta audio_sleep_at)
      with (sched := sched) (g := g) (st := Running A_open) (s := false)
      as (s' & Hm & _).
    + apply plain_signal; [intros s g0 g' st H; exact H|intros; exact I].
    + intros s g0 pc v H.
      destruct pc; cbn [audio_step]; split_ifs; cbn in H |- *;
        unfold sleep_delta; cbn; try (subst s; cbn);
        (eexists; split; [reflexivity|]); cbn; try exact I;
        bool_lia.
    + exact I.
    + unfold thread_ReceiveAudio. rewrite Hm. discriminate.
  - destruct (monitor_run (video_step avIndex) sleep_delta video_sleep_at)
      with (sched := sched) (g := g) (st := Running V_open) (s := false)
      as (s' & Hm & _).
    + apply plain_signal; [intros s g0 g' st H; exact H|intros; exact I].
    + intros s g0 pc v H.
      destruct pc; cbn [video_step]; split_ifs; cbn in H |- *;
        unfold sleep_delta; cbn; try (subst s; cbn);
        (eexists; split; [reflexivity|]); cbn; try exact I;
        bool_lia; auto.
    + exact I.
    + unfold thread_ReceiveVideo. rewrite Hm. discriminate.
Qed.

(** ** The routines run to their end *)

(** The connection thread and [main] contain no loop and wait for nothing
    but their calls: on a schedule without signals that holds 22 values,
    [thread_ConnectCCR] returns or ends the process, and so does [main] on
    one that holds 32; neither is left waiting for a further value. *)
Theorem routines_run_to_their_end :
  forall (K : sdk_consts) (argc : Z),
    returns_within 22 thread_ConnectCCR /\ returns_within 32 (main argc).
Proof.
  intros K argc. split; [apply connect_returns|apply main_returns].
Qed.

(** ** The connection thread: data flow, threads, failures *)

Ltac mleaf :=
  unfold is_early_failure, is_stop_accepted, is_create_failure,
    is_startup_failure, is_init_failure, is_failed_open, is_execlp,
    is_stop_rejected, setup_rejected, accepted; simpl;
  use_tests; simpl.

Lemma connect_releases_acquired {K : sdk_consts} :
  holds [] (fun l r =>
     let c := pick call_of l in
     r = Done tt -> existsb is_stop_accepted c = true ->
     exists pid fda fdv tmp sid av,
       firstn 6 c
       = [(c_fork, pid); (c_open AUDIO_FIFO_PATH O_RDWR, fda);
          (c_open VIDEO_FIFO_PATH O_RDWR, fdv); (c_IOTC_Get_SessionID, tmp);
          (c_IOTC_Connect_ByUID_Parallel tmp, sid); (c_avClientStart2 sid, av)] /\
       pick release_call c
       = [c_avSendIOCtrl av IOTYPE_USER_IPCAM_STOP;
          c_close VIDEO_FIFO_PATH fdv; c_close AUDIO_FIFO_PATH fda;
          c_kill_SIGKILL pid; c_avClientExit sid; c_avClientStop av;
          c_IOTC_Session_Close sid]) thread_ConnectCCR.
Proof.
  mrun.
  all: mleaf.
  all: try (intros; discriminate).
  all: intros _ H;
    first [solve [exfalso; bool_lia; lia]
          |eexists _, _, _, _, _, _; split; reflexivity].
Qed.

(** The teardown releases what the routine acquired.  When
    [thread_ConnectCCR] returns after an accepted stop command, its first six
    calls were [fork], the two [open]s, [IOTC_Get_SessionID], the connect on
    the slot just obtained and [avClientStart2] on the session just
    connected; and its teardown calls are the stop command on that stream,
    [close] on the two descriptors, [kill] on the forked process,
    [avClientExit], [avClientStop] and [IOTC_Session_Close] on that session
    and stream. *)
Theorem teardown_releases_what_was_acquired :
  forall (K : sdk_consts) (g : flags) (s : list input),
    let o := thread_ConnectCCR g s in
    res o = Done tt -> stop_accepted (events o) = true ->
    exists pid fda fdv tmp sid av,
      firstn 6 (called (events o))
      = [(c_fork, pid); (c_open AUDIO_FIFO_PATH O_RDWR, fda);
         (c_open VIDEO_FIFO_PATH O_RDWR, fdv); (c_IOTC_Get_SessionID, tmp);
         (c_IOTC_Connect_ByUID_Parallel tmp, sid); (c_avClientStart2 sid, av)] /\
      release_calls (events o)
      = [c_avSendIOCtrl av IOTYPE_USER_IPCAM_STOP;
         c_close VIDEO_FIFO_PATH fdv; c_close AUDIO_FIFO_PATH fda;
         c_kill_SIGKILL pid; c_avClientExit sid; c_avClientStop av;
         c_IOTC_Session_Close sid].
Proof.
  intros K g s o. exact (holds_run _ _ connect_releases_acquired g s).
Qed.

Lemma teardown_releases_what_was_acquired_witness :
  exists pid fda fdv tmp sid av,
    firstn 6 (called (events (thread_ConnectCCR (K := tutk_linux) flags0 run_ok)))
    = [(c_fork, pid); (c_open AUDIO_FIFO_PATH O_RDWR, fda);
       (c_open VIDEO_FIFO_PATH O_RDWR, fdv); (c_IOTC_Get_SessionID, tmp);
       (c_IOTC_Connect_ByUID_Parallel tmp, sid); (c_avClientStart2 sid, av)] /\
    release_calls (events (thread_ConnectCCR (K := tutk_linux) flags0 run_ok))
    = [c_avSendIOCtrl av IOTYPE_USER_IPCAM_STOP;
       c_close VIDEO_FIFO_PATH fdv; c_close AUDIO_FIFO_PATH fda;
       c_kill_SIGKILL pid; c_avClientExit sid; c_avClientStop av;
       c_IOTC_Session_Close sid].
Proof.
  apply (teardown_releases_what_was_acquired tutk_linux flags0 run_ok);
    reflexivity.
Defined.

Lemma connect_phases {K : sdk_consts} :
  holds [] (fun l r =>
     let c := pick call_of l in
     prefix_of (pick phase_of c) streaming_phases \/
     prefix_of (pick phase_of c) [P_stop]) thread_ConnectCCR.
Proof.
  mrun.
  all: first [left; eexists; reflexivity | right; eexists; reflexivity].
Qed.

(** The teardown waits for both receive threads.  In every run of
    [thread_ConnectCCR], thread creations, joins and the stop command occur
    in the order: create video, audio and buffer-clean thread, join the
    video thread, join the audio thread, stop; or, when no thread was
    created, the stop command alone.  The buffer-clean thread is never
    joined. *)
Theorem teardown_after_both_joins :
  forall (K : sdk_consts) (g : flags) (s : list input),
    prefix_of (phases (events (thread_ConnectCCR g s))) streaming_phases \/
    prefix_of (phases (events (thread_ConnectCCR g s))) [P_stop].
Proof.
  intros K g s. exact (holds_run _ _ connect_phases g s).
Qed.

Lemma connect_create_failure {K : sdk_consts} :
  holds [] (fun l r =>
     let c := pick call_of l in
     existsb is_create_failure c = true ->
     r = Exit (-1) /\
     pick release_of c = [] /\
     is_create_failure (last c (c_fork, 0)) = true) thread_ConnectCCR.
Proof.
  mrun.
  all: mleaf.
  all: try (intros; discriminate).
  all: intros _; repeat split; try reflexivity; assumption.
Qed.

(** A thread that cannot be created ends the process at once.  When a
    [pthread_create] of [thread_ConnectCCR] returns a non-zero value, that
    call is the last one, the process ends with [exit(-1)], and no teardown
    step has run: the camera stream, the session, the pipes and the consumer
    process are left as they are. *)
Theorem thread_creation_failure_is_fatal :
  forall (K : sdk_consts) (g : flags) (s : list input),
    let o := thread_ConnectCCR g s in
    create_failure (events o) = true ->
    res o = Exit (-1) /\
    teardown (events o) = [] /\
    is_create_failure (last (called (events o)) (c_fork, 0)) = true.
Proof.
  intros K g s o. exact (holds_run _ _ connect_create_failure g s).
Qed.

Lemma thread_creation_failure_is_fatal_witness :
  res (thread_ConnectCCR (K := tutk_linux) flags0
         (steps [1234; 3; 4; 0; 1; 2; 0; 0; 0; 0; 0; 11]))
  = Exit (-1).
Proof.
  apply (thread_creation_failure_is_fatal tutk_linux flags0
           (steps [1234; 3; 4; 0; 1; 2; 0; 0; 0; 0; 0; 11])).
  reflexivity.
Defined.

Lemma connect_child {K : sdk_consts} :
  holds [] (fun l r =>
     let c := pick call_of l in
     forall v, hd_error c = Some (c_fork, v) -> v = 0 \/ v = -1 ->
     prefix_of (map fst c)
       [c_fork; c_open AUDIO_FIFO_PATH O_RDWR;
        c_open VIDEO_FIFO_PATH O_RDWR; c_execlp_ffmpeg] /\
     r <> Done tt /\
     (v = -1 -> ~ In c_execlp_ffmpeg (map fst c))) thread_ConnectCCR.
Proof.
  mrun.
  all: simpl.
  all: try (intros; discriminate).
  all: intros w Hw Hv; injection Hw as <-; bool_lia.
  all: repeat split; try (eexists; reflexivity); try discriminate.
  all: try (intros; simpl; intuition discriminate).
  all: intros; lia.
Qed.

(** The child never touches the camera.  In a run where [fork] returned 0
    (the child) or -1 (no child), [thread_ConnectCCR] calls nothing but
    [fork], the two [open]s and, in the child only, [execlp]: no session is
    acquired, no command is sent, and the routine does not return; it ends
    in ffmpeg or in [exit]. *)
Theorem child_only_starts_consumer :
  forall (K : sdk_consts) (g : flags) (s : list input) (v : Z),
    let o := thread_ConnectCCR g s in
    hd_error (called (events o)) = Some (c_fork, v) -> v = 0 \/ v = -1 ->
    prefix_of (calls (events o))
      [c_fork; c_open AUDIO_FIFO_PATH O_RDWR;
       c_open VIDEO_FIFO_PATH O_RDWR; c_execlp_ffmpeg] /\
    res o <> Done tt /\
    (v = -1 -> ~ In c_execlp_ffmpeg (calls (events o))).
Proof.
  intros K g s v o. exact (holds_run _ _ connect_child g s v).
Qed.

Lemma child_only_starts_consumer_witness :
  res (thread_ConnectCCR (K := tutk_linux) flags0 run_child) <> Done tt.
Proof.
  apply (child_only_starts_consumer tutk_linux flags0 run_child 0);
    [reflexivity|now left].
Defined.

(** ** [main]: bringing the SDK up and down *)

Lemma main_lifecycle {K : sdk_consts} (argc : Z) :
  holds [] (fun l r =>
     let c := pick call_of l in
     let lc := pick lifecycle_of c in
     prefix_of lc full_lifecycle /\
     match r with
     | Done v =>
         lc = (if v =? -1 then []
               else if existsb is_init_failure c then [c_IOTC_Initialize2]
               else full_lifecycle)
     | Exit _ =>
         existsb is_forced l = false ->
         lc = [c_IOTC_Initialize2; c_avInitialize]
     | _ => True
     end) (main argc).
Proof.
  unfold main. destruct (argc <? 2).
  - mrun. split; [eexists; reflexivity|reflexivity].
  - mrun.
    all: mleaf.
    all: split; [eexists; reflexivity|].
    all: try exact I; try reflexivity.
    all: intros; first [discriminate|reflexivity].
Qed.

(** The SDK is shut down exactly when [main] runs to its end.  In every run
    the calls [IOTC_Initialize2], [avInitialize], the join of the connection
    thread, [avDeInitialize] and [IOTC_DeInitialize] occur in this order,
    each at most once.  When [main] returns, it has made none of them
    (argument error), only the failed [IOTC_Initialize2], or all five.  When
    the process ends by an [exit] of the program itself, neither
    de-initialisation has been called. *)
Theorem sdk_lifecycle :
  forall (K : sdk_consts) (argc : Z) (g : flags) (s : list input),
    let o := main argc g s in
    prefix_of (lifecycle (events o)) full_lifecycle /\
    match res o with
    | Done v =>
        lifecycle (events o)
        = (if v =? -1 then []
           else if init_failed (events o) then [c_IOTC_Initialize2]
           else full_lifecycle)
    | Exit _ =>
        forced (events o) = false ->
        lifecycle (events o) = [c_IOTC_Initialize2; c_avInitialize]
    | _ => True
    end.
Proof.
  intros K argc g s o. exact (holds_run _ _ (main_lifecycle argc) g s).
Qed.

Lemma main_lan_search {K : sdk_consts} (argc : Z) :
  holds [] (fun l r => lan_paired (pick lan_of (pick call_of l))) (main argc).
Proof.
  unfold main. destruct (argc <? 2).
  - mrun. exact I.
  - mrun.
    all: unfold lan_paired; simpl; try exact I.
    all: bool_lia.
    all: try match goal with
             | H : ?v = 0 |- context [?v =? 0] => rewrite H; reflexivity
             end.
    all: match goal with
         | H : ?v <> 0 |- context [?v =? 0] =>
             destruct (Z.eqb_spec v 0) as [Ev|_]; [contradiction|]
         end.
    all: eexists; reflexivity.
Qed.

(** The LAN search never uses or frees a null buffer.  In every run of
    [main], [IOTC_Lan_Search] and [free] are called only after [malloc]
    returned a non-null pointer, the search before the [free], each at most
    once; when [malloc] returns null neither is called. *)
Theorem lan_search_buffer_paired :
  forall (K : sdk_consts) (argc : Z) (g : flags) (s : list input),
    lan_paired (lan_calls (events (main argc g s))).
Proof.
  intros K argc g s. exact (holds_run _ _ (main_lan_search argc) g s).
Qed.

(** ** [start_ipcam_stream] on its own *)

Lemma start_ipcam_stream_contract_holds (avIndex : Z) :
  holds [] (fun l r =>
     let c := pick call_of l in
     prefix_of (map fst c) (map (c_avSendIOCtrl avIndex) setup_sequence) /\
     match r with
     | Done b =>
         (b = 1 /\ map fst c = map (c_avSendIOCtrl avIndex) setup_sequence
          /\ forallb accepted c = true) \/
         (b = 0 /\ c <> [] /\ accepted (last c (c_fork, 0)) = false
          /\ forallb accepted (removelast c) = true)
     | Exit code => code = 1 /\ existsb is_forced l = true
     | Replaced => False
     | Blocked => True
     end) (start_ipcam_stream avIndex).
Proof.
  mrun.
  all: mleaf.
  all: split; [eexists; reflexivity|].
  all: try exact I.
  all: try (split; reflexivity).
  all: bool_lia.
  all: repeat match goal with
              | |- context [0 <=? ?v] =>
                  destruct (Z.leb_spec 0 v); try lia
              end; simpl.
  all: first [left; repeat split; reflexivity
             |right; repeat split; try reflexivity; discriminate].
Qed.

(** The contract of [start_ipcam_stream].  It sends the four setup commands
    to the stream it was given, in order and stopping at the first one that
    is rejected.  It returns 1 exactly when all four were sent and accepted,
    and 0 exactly when the last command it sent was rejected; it never calls
    [exit] itself, and it never sends the stop command. *)
Theorem start_ipcam_stream_contract :
  forall (avIndex : Z) (g : flags) (s : list input),
    let o := start_ipcam_stream avIndex g s in
    let c := called (events o) in
    prefix_of (map fst c) (map (c_avSendIOCtrl avIndex) setup_sequence) /\
    match res o with
    | Done b =>
        (b = 1 /\ map fst c = map (c_avSendIOCtrl avIndex) setup_sequence
         /\ forallb accepted c = true) \/
        (b = 0 /\ c <> [] /\ accepted (last c (c_fork, 0)) = false
         /\ forallb accepted (removelast c) = true)
    | Exit code => code = 1 /\ forced (events o) = true
    | Replaced => False
    | Blocked => True
    end.
Proof.
  intros avIndex g s o c.
  exact (holds_run _ _ (start_ipcam_stream_contract_holds avIndex) g s).
Qed.

(** ** A single interrupt does not move the connection thread *)

Lemma calm_tail_signal (g : flags) (sg : signal) (s : list input) :
  calm g (Signal sg :: s) ->
  snd (sigpipe_handler sg g) = None /\
  calm (snd (fst (sigpipe_handler sg g))) s.
Proof.
  unfold calm. destruct sg; simpl; intros H.
  - split; [reflexivity|exact H].
  - destruct (sigkill g =? 1); simpl in *; [lia|].
    split; [reflexivity|lia].
  - split; [reflexivity|exact H].
Qed.

Lemma calm_tail_step (g : flags) (v : Z) (s : list input) :
  calm g (Step v :: s) -> calm g s.
Proof. unfold calm. simpl. intros H; exact H. Qed.

Lemma unmoved_ret {A : Type} (a : A) : unmoved (retM a).
Proof. intros g g' s H. simpl. repeat split; assumption. Qed.

Lemma unmoved_exit {A : Type} (code : Z) : unmoved (exit (A := A) code).
Proof. intros g g' s H. simpl. repeat split; assumption. Qed.

Lemma unmoved_replaced {A : Type} : unmoved (replaced (A := A)).
Proof. intros g g' s H. simpl. repeat split; assumption. Qed.

Lemma unmoved_emit (e : event) : mark_of e = None -> unmoved (emit e).
Proof.
  intros He g g' s H. unfold emit, called, marks. simpl. rewrite He.
  repeat split; assumption.
Qed.

Lemma unmoved_sys (c : call) : unmoved (sys c).
Proof.
  intros g g' s. revert g.
  induction s as [|i s IH]; intros g H.
  - simpl. repeat split; assumption.
  - destruct i as [sg|v].
    + destruct (calm_tail_signal g sg s H) as [Hn Hc].
      specialize (IH _ Hc).
      pose proof (called_handler sg g) as Hq.
      cbn [sys strip filter is_step].
      destruct (sigpipe_handler sg g) as [[evs g1] ex].
      cbn [fst snd] in *. subst ex.
      cbn [events res rest flags_after].
      rewrite Hq. exact IH.
    + apply calm_tail_step in H. simpl. repeat split; assumption.
Qed.

Lemma unmoved_bind {A B : Type} (m : M A) (k : A -> M B) :
  unmoved m -> (forall a, unmoved (k a)) -> unmoved (bind m k).
Proof.
  intros Hm Hk g g' s H.
  destruct (Hm g g' s H) as (Hc & Hr & Hrest & Hcalm).
  unfold bind. rewrite <- Hr.
  destruct (res (m g s)) as [a| | |]; cbn [events res rest flags_after];
    try (repeat split; assumption).
  destruct (Hk a (flags_after (m g s)) (flags_after (m g' (strip s)))
              (rest (m g s)) Hcalm) as (Hc2 & Hr2 & Hrest2 & Hcalm2).
  rewrite Hrest. rewrite !called_app, Hc, Hc2.
  repeat split; assumption.
Qed.

Lemma unmoved_print_devices (n : nat) : unmoved (print_devices n).
Proof.
  induction n as [|n IH]; simpl.
  - apply unmoved_ret.
  - apply unmoved_bind; [now apply unmoved_emit|intros _; exact IH].
Qed.

Ltac ustep :=
  lazymatch goal with
  | |- unmoved (bind _ _) => apply unmoved_bind; [|intros ?]
  | |- unmoved (sys _) => apply unmoved_sys
  | |- unmoved (emit _) => apply unmoved_emit; reflexivity
  | |- unmoved (printf _) => apply unmoved_emit; reflexivity
  | |- unmoved (perror _) => apply unmoved_emit; reflexivity
  | |- unmoved (PrintErrHandling _) => apply unmoved_emit; reflexivity
  | |- unmoved (print_devices _) => apply unmoved_print_devices
  | |- unmoved (retM _) => apply unmoved_ret
  | |- unmoved (exit _) => apply unmoved_exit
  | |- unmoved replaced => apply unmoved_replaced
  | |- unmoved (if ?b then _ else _) => destruct b
  end.

Lemma unmoved_connect {K : sdk_consts} : unmoved thread_ConnectCCR.
Proof.
  unfold thread_ConnectCCR, start_ipcam_stream, run_threads, execlp_ffmpeg.
  repeat ustep.
Qed.

Lemma unmoved_main {K : sdk_consts} (argc : Z) : unmoved (main argc).
Proof.
  unfold main, lan_search, thread_ConnectCCR, start_ipcam_stream, run_threads,
    execlp_ffmpeg.
  repeat ustep.
Qed.

(** Neither [main] nor the connection thread reacts to a graceful shutdown.
    On a schedule with at most one interrupt in all (counting one already
    pending) and any number of other signals, [main] and
    [thread_ConnectCCR] make exactly the calls, with the same results, and
    end the same way as on the schedule with all signals removed: the
    request acts only through the receive threads. *)
Theorem one_interrupt_leaves_main_unmoved :
  forall (K : sdk_consts) (argc : Z) (g g' : flags) (s : list input),
    calm g s ->
    called (events (main argc g s)) = called (events (main argc g' (strip s))) /\
    res (main argc g s) = res (main argc g' (strip s)) /\
    called (events (thread_ConnectCCR g s))
    = called (events (thread_ConnectCCR g' (strip s))) /\
    res (thread_ConnectCCR g s) = res (thread_ConnectCCR g' (strip s)).
Proof.
  intros K argc g g' s H.
  destruct (unmoved_main argc g g' s H) as (H1 & H2 & _).
  destruct (unmoved_connect g g' s H) as (H3 & H4 & _).
  repeat split; assumption.
Qed.

Lemma one_interrupt_leaves_main_unmoved_witness :
  res (thread_ConnectCCR (K := tutk_linux) flags0
         (Signal SIGPIPE :: Step 1234 :: Signal SIGINT :: Step 3
            :: Step 4 :: Step (-1) :: nil))
  = res (thread_ConnectCCR (K := tutk_linux) flags0
           (strip (Signal SIGPIPE :: Step 1234 :: Signal SIGINT :: Step 3
                     :: Step 4 :: Step (-1) :: nil))).
Proof.
  apply (one_interrupt_leaves_main_unmoved tutk_linux 2 flags0 flags0).
  unfold calm. simpl. lia.
Defined.

(** ** The version string *)

Lemma string_length_append (s1 s2 : string) :
  String.length (s1 ++ s2) = (String.length s1 + String.length s2)%nat.
Proof.
  induction s1 as [|a s1 IH]; simpl; [reflexivity|now rewrite IH].
Qed.

Lemma version_byte_range (avVer i : Z) : 0 <= version_byte avVer i < 256.
Proof.
  unfold version_byte. change 255 with (Z.ones 8).
  rewrite Z.land_ones by lia. apply Z.mod_pos_bound. reflexivity.
Qed.

Lemma fmt_d_byte_length (b : Z) :
  0 <= b < 256 ->
  (1 <= String.length (fmt_d b) <= 3)%nat.
Proof.
  intros Hb.
  assert (H : forallb (fun n => let k := String.length (fmt_d (Z.of_nat n)) in
                                (1 <=? k)%nat && (k <=? 3)%nat)
                (seq 0 256) = true) by (vm_compute; reflexivity).
  rewrite forallb_forall in H.
  specialize (H (Z.to_nat b)).
  rewrite Z2Nat.id in H by lia.
  assert (Hin : In (Z.to_nat b) (seq 0 256)) by (apply in_seq; lia).
  apply H in Hin. cbv zeta in Hin.
  apply andb_true_iff in Hin. destruct Hin as [H1 H2].
  apply Nat.leb_le in H1. apply Nat.leb_le in H2. lia.
Qed.

(** The version string fits its buffer.  Whatever [avGetAVApiVer] returns,
    the text [main] formats into [szAVVer] has between 7 and 15 characters,
    so with its terminating NUL it never exceeds the 16 bytes of the buffer;
    and the four numbers printed, most significant first, are the bytes of
    the version word. *)
Theorem version_string_fits :
  forall avVer : Z,
    (7 <= String.length (szAVVer avVer))%nat /\
    (String.length (szAVVer avVer) + 1 <= szAVVer_size)%nat /\
    version_byte avVer 3 * 2 ^ 24 + version_byte avVer 2 * 2 ^ 16
    + version_byte avVer 1 * 2 ^ 8 + version_byte avVer 0
    = avVer mod 2 ^ 32.
Proof.
  intros avVer.
  pose proof (fmt_d_byte_length _ (version_byte_range avVer 3)) as H3.
  pose proof (fmt_d_byte_length _ (version_byte_range avVer 2)) as H2.
  pose proof (fmt_d_byte_length _ (version_byte_range avVer 1)) as H1.
  pose proof (fmt_d_byte_length _ (version_byte_range avVer 0)) as H0.
  unfold szAVVer, szAVVer_size.
  rewrite !string_length_append. cbn [String.length].
  split; [lia|]. split; [lia|].
  unfold version_byte. change 255 with (Z.ones 8).
  rewrite !Z.land_ones by lia. rewrite !Z.shiftr_div_pow2 by lia.
  change (8 * 3) with 24. change (8 * 2) with 16. change (8 * 1) with 8.
  change (8 * 0) with 0. rewrite Z.pow_0_r, Z.div_1_r.
  change (2 ^ 24) with 16777216. change (2 ^ 16) with 65536.
  change (2 ^ 8) with 256. change (2 ^ 32) with 4294967296.
  Z.div_mod_to_equations. lia.
Qed.

Example version_string_example : szAVVer 50397956 = "3.1.3.4"%string.
Proof. reflexivity. Qed.

(** ** The error messages *)

Lemma err_table_checked :
  forallb (fun e =>
     Bool.eqb (match snd e with [] => true | _ => false end) (fst e =? -13)
     && match snd e with
        | [] => true
        | first :: others =>
            String.eqb first "[Error code : %d]\n"
            && (1 <=? List.length others)%nat && (List.length others <=? 5)%nat
        end
     && Bool.eqb (existsb (String.eqb "Retry...\n") (snd e))
                 (existsb (Z.eqb (fst e)) retry_codes)) err_table = true /\
  forallb (fun c => existsb (Z.eqb c) err_codes) retry_codes = true.
Proof. split; vm_compute; reflexivity. Qed.

Lemma existsb_In_Z (x : Z) (l : list Z) :
  existsb (Z.eqb x) l = true <-> In x l.
Proof.
  rewrite existsb_exists. split.
  - intros (y & Hy & E). apply Z.eqb_eq in E. now subst.
  - intros H. exists x. split; [exact H|apply Z.eqb_refl].
Qed.

Lemma existsb_In_string (x : string) (l : list string) :
  existsb (String.eqb x) l = true <-> In x l.
Proof.
  rewrite existsb_exists. split.
  - intros (y & Hy & E). apply String.eqb_eq in E. now subst.
  - intros H. exists x. split; [exact H|apply String.eqb_refl].
Qed.

(** What [PrintErrHandling] prints.  It prints nothing for
    [IOTC_ER_TIMEOUT] (-13) and for every code that has no [case], such as
    0 or a positive value; for every other code it prints the line with the
    error code first, followed by one to five lines of explanation; and it
    announces a retry exactly for the codes -19, -26, -33 and -41. *)
Theorem error_table_shape :
  forall nErr : Z,
    (err_lines nErr = [] <-> nErr = -13 \/ ~ In nErr err_codes) /\
    (err_lines nErr <> [] ->
     hd_error (err_lines nErr) = Some "[Error code : %d]\n"%string /\
     (2 <= List.length (err_lines nErr) <= 6)%nat) /\
    (In "Retry...\n"%string (err_lines nErr) <-> In nErr retry_codes).
Proof.
  intros nErr.
  destruct err_table_checked as [Ht Hr].
  rewrite forallb_forall in Ht, Hr.
  unfold err_lines.
  destruct (find (fun e => fst e =? nErr) err_table) as [[c lines]|] eqn:Ef.
  - apply find_some in Ef. destruct Ef as [Hin Hc].
    cbn [fst] in Hc. apply Z.eqb_eq in Hc. subst c.
    specialize (Ht _ Hin). cbn [fst snd] in Ht |- *.
    apply andb_true_iff in Ht. destruct Ht as [Ht H3].
    apply andb_true_iff in Ht. destruct Ht as [H1 H2].
    apply Bool.eqb_prop in H1. apply Bool.eqb_prop in H3.
    assert (Hcode : In nErr err_codes)
      by (unfold err_codes; change nErr with (fst (nErr, lines));
          now apply in_map).
    split; [|split].
    + split.
      * intros ->. left. symmetry in H1. now apply Z.eqb_eq in H1.
      * intros [->|Hn]; [|contradiction].
        destruct lines; [reflexivity|discriminate H1].
    + intros Hne. destruct lines as [|first others]; [now elim Hne|].
      apply andb_true_iff in H2. destruct H2 as [H2 Hb].
      apply andb_true_iff in H2. destruct H2 as [Hf Ha].
      apply String.eqb_eq in Hf. apply Nat.leb_le in Ha, Hb.
      subst first. cbn [hd_error List.length]. split; [reflexivity|lia].
    + rewrite <- existsb_In_string, <- existsb_In_Z. now rewrite H3.
  - cbn [snd].
    assert (Hn : ~ In nErr err_codes).
    { intros Hin. unfold err_codes in Hin. apply in_map_iff in Hin.
      destruct Hin as (e & He & Hin).
      pose proof (find_none _ _ Ef e Hin) as Hf. cbn beta in Hf.
      rewrite He, Z.eqb_refl in Hf. discriminate Hf. }
    split; [|split].
    + split; [intros _; now right|reflexivity].
    + intros Hne. now elim Hne.
    + split; [intros []|].
      intros Hin. exfalso. apply Hn.
      apply existsb_In_Z. apply Hr. exact Hin.
Qed.
